(** * Two-sided orthogonal Procrustes with a single transformation

    A shallow embedding of
    [procrustes/procrustes_two_sided_orthogonal_single_transformation.py]
    (class [TwoSidedOrthogonalSingleTransformationProcrustes]) and the
    properties of its constructor and of [calculate].

    Conventions of the embedding.
    - Array entries are exact rationals ([Q]).  The control flow, the
      comparisons and the constants ([1e-10], [1e-8], [1e5], [tol]) are the
      ones of the source; rounding, infinities and NaN of binary floating
      point are outside the model.
    - A 2-D numpy array is the list of its rows (so an array without rows
      has no columns here).  The numpy operations the class calls are in
      module [np].  The difference [a - b] broadcasts as numpy does and
      has no value where numpy raises; the other elementwise operations
      are used by the class on arrays of equal shapes only and are given
      for those.
    - The base class [Procrustes] and [OrthogonalProcrustes] are not part
      of the sources read here; the methods the class calls on them are
      the fields of the interface [Base].
    - Python exceptions are values of [exn]; a method that may raise
      returns [exn + _]. *)

From Stdlib Require Import List Bool Arith ZArith QArith Qabs Lia Lqa String.
From Stdlib Require Import Sorting.Sorted.
Import ListNotations.

Open Scope Q_scope.

(* ================================================================= *)
(** ** Scalar comparisons *)

(** Python's [x < y] on scalars. *)
Definition Qltb (x y : Q) : bool := negb (Qle_bool y x).

(** Python's [x >= y] on scalars. *)
Definition Qgeb (x y : Q) : bool := Qle_bool y x.

(** Python's [x > y] on scalars. *)
Definition Qgtb (x y : Q) : bool := Qltb y x.

(* ================================================================= *)
(** ** The numpy operations used by the class *)

Module np.

(** A 2-D array, as the list of its rows. *)
Definition ndarray : Type := list (list Q).

(** [a.shape] of a 2-D array. *)
Definition shape (a : ndarray) : nat * nat :=
  (List.length a, List.length (hd [] a)).

(** [a[i, j]]. *)
Definition item (a : ndarray) (i j : nat) : Q := nth j (nth i a []) 0.

(** Elementwise combination of two arrays of the same shape. *)
Fixpoint zip_with {A B C : Type} (f : A -> B -> C)
  (l : list A) (l' : list B) : list C :=
  match l, l' with
  | x :: r, y :: r' => f x y :: zip_with f r r'
  | _, _ => []
  end.

(** [a.T]: entry [(j, i)] of the result is entry [(i, j)] of [a]. *)
Definition T (a : ndarray) : ndarray :=
  map (fun j => map (fun row => nth j row 0) a) (seq 0 (snd (shape a))).

(** The length, along one axis, of the result of broadcasting two arrays
    together: equal lengths stay, a length 1 is stretched to the other
    length, and no other two lengths go together. *)
Definition broadcast_axis (n m : nat) : option nat :=
  if Nat.eqb n m then Some n
  else if Nat.eqb n 1 then Some m
  else if Nat.eqb m 1 then Some n
  else None.

(** [np.broadcast_to(a, (r, c))], for an array each of whose axes has the
    length asked for or the length 1: an axis of length 1 is repeated. *)
Definition broadcast_to (r c : nat) (a : ndarray) : ndarray :=
  map (fun i =>
         map (fun j =>
                item a (if Nat.eqb (fst (shape a)) r then i else 0%nat)
                       (if Nat.eqb (snd (shape a)) c then j else 0%nat))
             (seq 0 c))
      (seq 0 r).

(** [a - b]: the elementwise difference of the two arrays broadcast
    together, and [None] where numpy raises
    [ValueError: operands could not be broadcast together]. *)
Definition subtract (a b : ndarray) : option ndarray :=
  match broadcast_axis (fst (shape a)) (fst (shape b)),
        broadcast_axis (snd (shape a)) (snd (shape b)) with
  | Some r, Some c =>
      Some (zip_with (zip_with Qminus) (broadcast_to r c a)
                                       (broadcast_to r c b))
  | _, _ => None
  end.

(** [abs(a)], entry by entry. *)
Definition absolute (a : ndarray) : ndarray := map (map Qabs) a.

(** [np.multiply(a, b)]: the elementwise product. *)
Definition multiply (a b : ndarray) : ndarray :=
  zip_with (zip_with Qmult) a b.

(** [a > c] and [a < c] against a scalar: arrays of booleans. *)
Definition greater (a : ndarray) (c : Q) : list (list bool) :=
  map (map (fun x => Qgtb x c)) a.

Definition less (a : ndarray) (c : Q) : list (list bool) :=
  map (map (fun x => Qltb x c)) a.

(** [mask.all()]: every entry is true (true on an array without
    entries). *)
Definition all (mask : list (list bool)) : bool :=
  forallb (forallb (fun b => b)) mask.

(** [a[mask] = c]: the entries selected by the mask are overwritten. *)
Definition setitem_mask (a : ndarray) (mask : list (list bool)) (c : Q)
  : ndarray :=
  zip_with (zip_with (fun x (b : bool) => if b then c else x)) a mask.

(** Inner product of a row with a column. *)
Definition inner (r c : list Q) : Q :=
  fold_right Qplus 0 (zip_with Qmult r c).

(** [np.dot(a, b)] on 2-D arrays: the matrix product. *)
Definition dot (a b : ndarray) : ndarray :=
  map (fun row => map (fun col => inner row col) (T b)) a.

(** [np.diag(v)] on a vector: the square array with [v] on its diagonal. *)
Definition diag (v : list Q) : ndarray :=
  let n := List.length v in
  map (fun i => map (fun j => if Nat.eqb i j then nth i v 0 else 0) (seq 0 n))
      (seq 0 n).

(** [np.eye(n)]. *)
Definition eye (n : nat) : ndarray := diag (repeat 1 n).

End np.

(* ================================================================= *)
(** ** [itertools.product] *)

Module itertools.

(** One round of the comprehension
    [result = [x+[y] for x in result for y in pool]]. *)
Definition extend {A : Type} (pool : list A) (result : list (list A))
  : list (list A) :=
  flat_map (fun x => map (fun y => x ++ [y]) pool) result.

(** [list(product(pool, repeat=n))]: starting from [[[]]], one round per
    copy of the pool. *)
Definition product {A : Type} (pool : list A) (n : nat) : list (list A) :=
  Nat.iter n (extend pool) [[]].

End itertools.

(** The order of Python tuples: lexicographic. *)
Inductive lex_lt : list Q -> list Q -> Prop :=
| lex_nil : forall y l, lex_lt [] (y :: l)
| lex_head : forall x y l l', x < y -> lex_lt (x :: l) (y :: l')
| lex_tail : forall x l l', lex_lt l l' -> lex_lt (x :: l) (x :: l').

(** A sign vector of length [n]: a point of [{-1, +1}^n]. *)
Definition sign_vector (n : nat) (d : list Q) : Prop :=
  List.length d = n /\ Forall (fun x => x = -1 \/ x = 1) d.

(* ================================================================= *)
(** ** Exceptions and the interface of the base class *)

(** The Python exceptions the class can meet: the [ValueError]s it raises
    itself, and what Python raises when [None] is used as an array
    ([None.T]) or compared ([None >= x]). *)
Inductive exn : Type :=
| ValueError (msg : string)
| AttributeError
| TypeError.

Definition msg_symmetric : string :=
  "Arrays array_a and array_b must both be symmetric for this analysis.".

(** The [ValueError] of numpy for shapes that do not broadcast (numpy
    appends the two shapes to this text). *)
Definition msg_broadcast : string :=
  "operands could not be broadcast together".

Definition msg_select : string :=
  " Cannot complete analysis. You must select at least one transformation.".

Definition result (A : Type) : Type := (exn + A)%type.

Definition bind {A B : Type} (r : result A) (k : A -> result B) : result B :=
  match r with
  | inl e => inl e
  | inr a => k a
  end.

Notation "x <- r ;; k" := (bind r (fun x => k))
  (at level 61, r at next level, right associativity).

(** [x] where Python needs an array or a number and [x] may be [None]. *)
Definition need {A : Type} (e : exn) (x : option A) : result A :=
  match x with
  | Some a => inr a
  | None => inl e
  end.

(** The attributes of an instance.  [transformation] is the attribute that
    [map_a_b] sets and that [calculate] returns last; [transform] is the
    type of its values, which belongs to the base class. *)
Record Procrustes (transform : Type) : Type := {
  array_a : np.ndarray;
  array_b : np.ndarray;
  translate : bool;
  scale : bool;
  preserve_symmetry : bool;
  hide_padding : bool;
  translate_symmetrically : bool;
  transformation : transform
}.

Arguments array_a {transform} _.
Arguments array_b {transform} _.
Arguments translate {transform} _.
Arguments scale {transform} _.
Arguments preserve_symmetry {transform} _.
Arguments hide_padding {transform} _.
Arguments translate_symmetrically {transform} _.
Arguments transformation {transform} _.

(** What the class calls and does not define: the constructor and the
    methods of the base class [Procrustes] (module [procrustes.base]), and
    [OrthogonalProcrustes(...).calculate()].  The decompositions and the
    error are functions of their arguments (the tests import them as plain
    functions of arrays); [map_a_b] updates the instance. *)
Class Base : Type := {
  transform : Type;
  (** [Procrustes.__init__(self, array_a, array_b, translate=, scale=,
      preserve_symmetry=, hide_padding=, translate_symmetrically=)]: the
      instance with the preprocessed arrays. *)
  Procrustes_init :
    np.ndarray -> np.ndarray -> bool -> bool -> bool -> bool -> bool ->
    Procrustes transform;
  (** [self.is_diagonalizable(array)]: a Python [bool]. *)
  is_diagonalizable : np.ndarray -> bool;
  (** [self.eigenvalue_decomposition(array)]: [(sigma, u)]. *)
  eigenvalue_decomposition : np.ndarray -> list Q * np.ndarray;
  (** [self.singular_value_decomposition(array)]: [(u, sigma, v_trans)]. *)
  singular_value_decomposition :
    np.ndarray -> np.ndarray * list Q * np.ndarray;
  (** [self.double_sided_procrustes_error(a, b, t_left, t_right)]. *)
  double_sided_procrustes_error :
    np.ndarray -> np.ndarray -> np.ndarray -> np.ndarray -> Q;
  (** [OrthogonalProcrustes(a, b, translate=, scale=,
      hide_padding=).calculate()]:
      [(u, array_transformed, error, translate_and_or_scale)]. *)
  OrthogonalProcrustes_calculate :
    np.ndarray -> np.ndarray -> bool -> bool -> bool ->
    np.ndarray * np.ndarray * Q * transform;
  (** [self.map_a_b(t1, t2, preserve_symmetry=, translate_symmetrically=)]. *)
  map_a_b :
    np.ndarray -> np.ndarray -> bool -> bool ->
    Procrustes transform -> Procrustes transform
}.

(** The tuple [calculate] returns, component by component:
    [u_approx, u_best, array_transformed_approx, array_transformed_best,
     error_approx, error_best, self.transformation]. *)
Record Output (transform : Type) : Type := {
  u_approx : option np.ndarray;
  u_best : option np.ndarray;
  array_transformed_approx : option np.ndarray;
  array_transformed_best : option np.ndarray;
  error_approx : option Q;
  error_best : option Q;
  applied_transformation : transform
}.

Arguments u_approx {transform} _.
Arguments u_best {transform} _.
Arguments array_transformed_approx {transform} _.
Arguments array_transformed_best {transform} _.
Arguments error_approx {transform} _.
Arguments error_best {transform} _.
Arguments applied_transformation {transform} _.

(* ================================================================= *)
(** ** [__init__] *)

(** [(abs(a - a.T) > 1.e-10).all()]; the difference raises when [a] and
    [a.T] do not broadcast together. *)
Definition asymmetry_test (a : np.ndarray) : result bool :=
  match np.subtract a (np.T a) with
  | Some d => inr (np.all (np.greater (np.absolute d) 1e-10))
  | None => inl (ValueError msg_broadcast)
  end.

(** [TwoSidedOrthogonalSingleTransformationProcrustes.__init__]: the base
    class preprocesses the arrays, then the two arrays are tested, the
    second one only when the test of the first one is [False] (Python's
    [or]). *)
Definition init `{Base} (array_a0 array_b0 : np.ndarray)
  (translate scale preserve_symmetry hide_padding
     translate_symmetrically : bool) : result (Procrustes transform) :=
  let self :=
    Procrustes_init array_a0 array_b0 translate scale preserve_symmetry
      hide_padding translate_symmetrically in
  test_a <- asymmetry_test (array_a self) ;;
  if test_a : bool then inl (ValueError msg_symmetric)
  else
    test_b <- asymmetry_test (array_b self) ;;
    if test_b : bool then inl (ValueError msg_symmetric)
    else inr self.

(** The constructor with its default arguments
    ([translate=False, scale=False, preserve_symmetry=True,
      hide_padding=True, translate_symmetrically=False]). *)
Definition init_default `{Base} (array_a0 array_b0 : np.ndarray)
  : result (Procrustes transform) :=
  init array_a0 array_b0 false false true true false.

(* ================================================================= *)
(** ** [calculate] *)

(** The body of [if return_u_approx:]; it yields
    [(u_approx, error_approx, array_transformed_approx)]. *)
Definition approx_block `{Base} (self : Procrustes transform)
  : np.ndarray * Q * np.ndarray :=
  let array_a := array_a self in
  let array_b := array_b self in
  let '(sigma_a, u_a) := eigenvalue_decomposition array_a in
  let '(sigma_a0, u_a0) := eigenvalue_decomposition array_b in
  let u_umeyama := np.multiply (np.absolute u_a) (np.T (np.absolute u_a0)) in
  let '(n, m) := np.shape u_umeyama in
  let '(u_approx, array_transformed_ortho, error_ortho,
        translate_and_or_scale) :=
    OrthogonalProcrustes_calculate (np.eye n) u_umeyama
      (translate self) (scale self) (hide_padding self) in
  let u_approx :=
    np.setitem_mask u_approx (np.less (np.absolute u_approx) 1e-8) 0 in
  let error_approx :=
    double_sided_procrustes_error array_a array_b u_approx u_approx in
  let array_transformed_approx := np.dot array_a u_approx in
  (u_approx, error_approx, array_transformed_approx).

(** How one turn of a [for] loop ends: with [break], or by going on to the
    next turn; either way with the values of the loop's variables. *)
Inductive flow (S : Type) : Type :=
| Break (s : S)
| Next (s : S).

Arguments Break {S} _.
Arguments Next {S} _.

(** [for i in range: body], from the state [s]: the final state, and the
    values of [i] for which the body was run. *)
Fixpoint for_range {S : Type} (body : nat -> S -> flow S)
  (range : list nat) (s : S) : S * list nat :=
  match range with
  | [] => (s, [])
  | i :: rest =>
      match body i s with
      | Break s' => (s', [i])
      | Next s' =>
          let '(r, run) := for_range body rest s' in (r, i :: run)
      end
  end.

(** [np.dot(np.dot(u_a, np.diag(d)), u_a0.T)] *)
Definition u_trial_of (u_a u_a0 : np.ndarray) (d : list Q) : np.ndarray :=
  np.dot (np.dot u_a (np.diag d)) (np.T u_a0).

(** The body of the sign-search loop, on the pair [(u_best, error_best)]. *)
Definition trial_body `{Base} (array_a array_b u_a u_a0 : np.ndarray)
  (diag_vec_list : list (list Q)) (tol : Q)
  (i : nat) (s : np.ndarray * Q) : flow (np.ndarray * Q) :=
  let '(u_best, error_best) := s in
  let u_trial := u_trial_of u_a u_a0 (nth i diag_vec_list []) in
  let error :=
    double_sided_procrustes_error array_a array_b u_trial u_trial in
  if Qltb error tol then Break (u_trial, error)
  else if Qltb error error_best then Next (u_trial, error)
  else Next (u_best, error_best).

(** The sentinel [error_best = 1.e5]. *)
Definition sentinel : Q := 1e5.

(** The loop of the sign search with its initialisation:
    [((u_best, error_best), indices of the trials that were run)]. *)
Definition sign_search `{Base} (self : Procrustes transform) (tol : Q)
  : (np.ndarray * Q) * list nat :=
  let array_a := array_a self in
  let array_b := array_b self in
  let '(u_a, sigma_a, v_trans_a) := singular_value_decomposition array_a in
  let '(u_a0, sigma_a0, v_trans_a0) := singular_value_decomposition array_b in
  let n := List.length sigma_a in
  let diag_vec_list := itertools.product [-1; 1] n in
  for_range (trial_body array_a array_b u_a u_a0 diag_vec_list tol)
    (seq 0 (2 ^ n)) (u_a, sentinel).

(** The body of [if return_u_best:]; it yields
    [(u_best, error_best, array_transformed_best)]. *)
Definition best_block `{Base} (self : Procrustes transform) (tol : Q)
  : np.ndarray * Q * np.ndarray :=
  let '(u_best, error_best) := fst (sign_search self tol) in
  let array_transformed_best :=
    np.dot (np.dot (np.T u_best) (array_a self)) u_best in
  (u_best, error_best, array_transformed_best).

(** The local variables of [calculate] that the two blocks may set; each
    starts as [None]. *)
Record locals : Type := {
  l_u_approx : option np.ndarray;
  l_error_approx : option Q;
  l_array_transformed_approx : option np.ndarray;
  l_u_best : option np.ndarray;
  l_error_best : option Q;
  l_array_transformed_best : option np.ndarray
}.

(** The flag after
    [if self.is_diagonalizable(array_a) is False or
        self.is_diagonalizable(array_b) is False: return_u_approx = False]. *)
Definition effective_approx `{Base} (self : Procrustes transform)
  (return_u_approx : bool) : bool :=
  if negb (is_diagonalizable (array_a self))
     || negb (is_diagonalizable (array_b self))
  then false else return_u_approx.

(** The local variables after the two optional blocks. *)
Definition run_blocks `{Base} (self : Procrustes transform)
  (return_u_approx return_u_best : bool) (tol : Q) : locals :=
  let a :=
    if return_u_approx then Some (approx_block self) else None in
  let b :=
    if return_u_best then Some (best_block self tol) else None in
  {| l_u_approx := option_map (fun x => fst (fst x)) a;
     l_error_approx := option_map (fun x => snd (fst x)) a;
     l_array_transformed_approx := option_map snd a;
     l_u_best := option_map (fun x => fst (fst x)) b;
     l_error_best := option_map (fun x => snd (fst x)) b;
     l_array_transformed_best := option_map snd b |}.

(** The tuple of the three [return] statements, with [u_best] and
    [error_best] as they stand at the [return]. *)
Definition returned `{Base} (l : locals) (u_best : option np.ndarray)
  (error_best : option Q) (self : Procrustes transform) : Output transform :=
  {| u_approx := l_u_approx l;
     u_best := u_best;
     array_transformed_approx := l_array_transformed_approx l;
     array_transformed_best := l_array_transformed_best l;
     error_approx := l_error_approx l;
     error_best := error_best;
     applied_transformation := transformation self |}.

(** [calculate(self, return_u_approx=False, return_u_best=True,
    tol=1.e-12)]: the returned tuple and the instance as [map_a_b] leaves
    it, or the exception raised. *)
Definition calculate `{Base} (self : Procrustes transform)
  (return_u_approx return_u_best : bool) (tol : Q)
  : result (Output transform * Procrustes transform) :=
  let return_u_approx := effective_approx self return_u_approx in
  let l := run_blocks self return_u_approx return_u_best tol in
  if return_u_approx && return_u_best then
    error_approx <- need TypeError (l_error_approx l) ;;
    error_best <- need TypeError (l_error_best l) ;;
    let '(u_best, error_best) :=
      if Qgeb error_approx error_best
      then (l_u_best l, Some error_best)
      else (l_u_approx l, Some error_approx) in
    u <- need AttributeError u_best ;;
    let self := map_a_b (np.T u) u true (translate_symmetrically self) self in
    inr (returned l u_best error_best self, self)
  else if return_u_approx then
    u <- need AttributeError (l_u_approx l) ;;
    let self := map_a_b (np.T u) u true (translate_symmetrically self) self in
    inr (returned l (l_u_best l) (l_error_best l) self, self)
  else if return_u_best then
    u <- need AttributeError (l_u_best l) ;;
    let self := map_a_b (np.T u) u true (translate_symmetrically self) self in
    inr (returned l (l_u_best l) (l_error_best l) self, self)
  else inl (ValueError msg_select).

(** [calculate()] with its default arguments. *)
Definition calculate_default `{Base} (self : Procrustes transform)
  : result (Output transform * Procrustes transform) :=
  calculate self false true 1e-12.

(* ================================================================= *)
(** ** Vocabulary of the statements *)

(** Prefixing every tuple of [l] by every element of [heads], the heads
    outermost: the enumeration with the first component varying
    slowest. *)
Definition prefix_all {A : Type} (heads : list A) (l : list (list A))
  : list (list A) :=
  flat_map (fun y => map (cons y) l) heads.

(** The parts of the decompositions that [calculate] uses. *)
Definition svd_u `{Base} (a : np.ndarray) : np.ndarray :=
  fst (fst (singular_value_decomposition a)).

Definition svd_sigma `{Base} (a : np.ndarray) : list Q :=
  snd (fst (singular_value_decomposition a)).

Definition eig_u `{Base} (a : np.ndarray) : np.ndarray :=
  snd (eigenvalue_decomposition a).

(** [n = sigma_a.shape[0]], the sign patterns, and their number. *)
Definition search_dim `{Base} (self : Procrustes transform) : nat :=
  List.length (svd_sigma (array_a self)).

Definition sign_patterns `{Base} (self : Procrustes transform)
  : list (list Q) :=
  itertools.product [-1; 1] (search_dim self).

Definition trial_count `{Base} (self : Procrustes transform) : nat :=
  (2 ^ search_dim self)%nat.

(** Trial [i] of the sign search: [U_A . diag(d_i) . U_B'], and the pair of
    it with its error. *)
Definition trial_u `{Base} (self : Procrustes transform) (i : nat)
  : np.ndarray :=
  np.dot (np.dot (svd_u (array_a self)) (np.diag (nth i (sign_patterns self) [])))
         (np.T (svd_u (array_b self))).

Definition trial_error `{Base} (self : Procrustes transform) (i : nat) : Q :=
  double_sided_procrustes_error (array_a self) (array_b self)
    (trial_u self i) (trial_u self i).

Definition trial `{Base} (self : Procrustes transform) (i : nat)
  : np.ndarray * Q :=
  (trial_u self i, trial_error self i).

(** The body of the loop of [calculate] on an instance. *)
Definition search_body `{Base} (self : Procrustes transform) (tol : Q)
  : nat -> np.ndarray * Q -> flow (np.ndarray * Q) :=
  trial_body (array_a self) (array_b self)
    (svd_u (array_a self)) (svd_u (array_b self)) (sign_patterns self) tol.

(** The candidate of the sign search, and the trials it ran. *)
Definition search_u `{Base} (self : Procrustes transform) (tol : Q)
  : np.ndarray :=
  fst (fst (sign_search self tol)).

Definition search_error `{Base} (self : Procrustes transform) (tol : Q) : Q :=
  snd (fst (sign_search self tol)).

Definition search_run `{Base} (self : Procrustes transform) (tol : Q)
  : list nat :=
  snd (sign_search self tol).

(** The candidate of the spectral approximation. *)
Definition approx_u `{Base} (self : Procrustes transform) : np.ndarray :=
  fst (fst (approx_block self)).

Definition approx_error `{Base} (self : Procrustes transform) : Q :=
  snd (fst (approx_block self)).

(** The alignment matrix [|U_A| (.) |U_B|'] of the eigenvector bases, and
    what the one-sided solver returns for the pair (identity, alignment
    matrix). *)
Definition umeyama `{Base} (self : Procrustes transform) : np.ndarray :=
  np.multiply (np.absolute (eig_u (array_a self)))
              (np.T (np.absolute (eig_u (array_b self)))).

Definition ortho_u `{Base} (self : Procrustes transform) : np.ndarray :=
  fst (fst (fst
    (OrthogonalProcrustes_calculate
       (np.eye (fst (np.shape (umeyama self)))) (umeyama self)
       (translate self) (scale self) (hide_padding self)))).

(** The instance after [self.map_a_b(u.T, u, preserve_symmetry=True,
    translate_symmetrically=self.translate_symmetrically)]. *)
Definition mapped `{Base} (self : Procrustes transform) (u : np.ndarray)
  : Procrustes transform :=
  map_a_b (np.T u) u true (translate_symmetrically self) self.

(** An array of [n] rows and [m] columns. *)
Definition has_shape (n m : nat) (a : np.ndarray) : Prop :=
  List.length a = n /\ Forall (fun row => List.length row = m) a.

(** Entries of magnitude below [1e-8] replaced by [0]. *)
Definition snap_to_zero (u : np.ndarray) : np.ndarray :=
  map (map (fun x => if Qltb (Qabs x) 1e-8 then 0 else x)) u.

(** No trial has an error below the tolerance: the loop runs to its end. *)
Definition no_early_exit `{Base} (self : Procrustes transform) (tol : Q)
  : Prop :=
  forall i, (i < trial_count self)%nat -> tol <= trial_error self i.

(** The sign search ends on trial [i], the first of the trials of least
    error. *)
Definition first_minimum `{Base} (self : Procrustes transform) (tol : Q)
  (i : nat) : Prop :=
  (i < trial_count self)%nat
  /\ fst (sign_search self tol) = trial self i
  /\ (forall j, (j < trial_count self)%nat ->
                trial_error self i <= trial_error self j)
  /\ (forall j, (j < i)%nat -> trial_error self i < trial_error self j).

(** [calculate], asked for the best transformation, returns as
    [(u_best, error_best)] the matrix and the error of trial [i]. *)
Definition returns_trial `{Base} (self : Procrustes transform)
  (return_u_approx : bool) (tol : Q) (i : nat) : Prop :=
  exists out self',
    calculate self return_u_approx true tol = inr (out, self')
    /\ u_best out = Some (trial_u self i)
    /\ error_best out = Some (trial_error self i).

(** [calculate] returns the pair of the first of the trials of least
    error. *)
Definition returns_first_minimum `{Base} (self : Procrustes transform)
  (return_u_approx : bool) (tol : Q) : Prop :=
  exists i,
    (i < trial_count self)%nat
    /\ returns_trial self return_u_approx tol i
    /\ (forall j, (j < trial_count self)%nat ->
                  trial_error self i <= trial_error self j)
    /\ (forall j, (j < i)%nat -> trial_error self i < trial_error self j).

(** [calculate] returns as [(u_best, error_best)] the approximate matrix
    and its error. *)
Definition returns_approximate `{Base} (self : Procrustes transform)
  (return_u_approx : bool) (tol : Q) : Prop :=
  exists out self',
    calculate self return_u_approx true tol = inr (out, self')
    /\ u_best out = Some (approx_u self)
    /\ error_best out = Some (approx_error self).

(** [calculate] returns as [(u_best, error_best)] the pair the sign
    search starts from: [U_A] and [1e5]. *)
Definition returns_sentinel_pair `{Base} (self : Procrustes transform)
  (return_u_approx : bool) (tol : Q) : Prop :=
  exists out self',
    calculate self return_u_approx true tol = inr (out, self')
    /\ u_best out = Some (svd_u (array_a self))
    /\ error_best out = Some 1e5.

(** [calculate] returns, and without an approximate transformation. *)
Definition returns_without_approx `{Base} (self : Procrustes transform)
  (return_u_approx return_u_best : bool) (tol : Q) : Prop :=
  exists out self',
    calculate self return_u_approx return_u_best tol = inr (out, self')
    /\ u_approx out = None.

(** Two instances with the same preprocessed arrays and the same flags;
    the attribute [transformation], which [map_a_b] rewrites, is free. *)
Definition same_inputs {X : Type} (s1 s2 : Procrustes X) : Prop :=
  array_a s1 = array_a s2 /\ array_b s1 = array_b s2
  /\ translate s1 = translate s2 /\ scale s1 = scale s2
  /\ preserve_symmetry s1 = preserve_symmetry s2
  /\ hide_padding s1 = hide_padding s2
  /\ translate_symmetrically s1 = translate_symmetrically s2.

(** Two results of [calculate] with the same arrays and errors: both raise
    the same exception, or both return and agree on [u_approx], [u_best],
    the two transformed arrays and the two errors. *)
Definition same_outputs {X : Type}
  (r1 r2 : result (Output X * Procrustes X)) : Prop :=
  match r1, r2 with
  | inl e1, inl e2 => e1 = e2
  | inr (o1, _), inr (o2, _) =>
      u_approx o1 = u_approx o2 /\ u_best o1 = u_best o2
      /\ array_transformed_approx o1 = array_transformed_approx o2
      /\ array_transformed_best o1 = array_transformed_best o2
      /\ error_approx o1 = error_approx o2
      /\ error_best o1 = error_best o2
  | _, _ => False
  end.

(* ================================================================= *)
(** ** A concrete base class on 1 x 1 arrays *)

(** Modelled from the spec: the base-class methods, which are not among
    the sources, on arrays with a single entry.  There the singular value
    decomposition of [[x]] is [([[+-1]], [|x|], [[1]])], its eigenvalue
    decomposition is [([x], [[1]])], the Frobenius norm is the absolute
    value of the entry (so the error of section 4.5 is
    [|a * t_right - t_left * b|]), and the orthogonal matrix closest to
    [[m]] is [[+-1]] with the sign of [m].  The constructor keeps arrays
    of equal shape as they are when neither translation nor scaling is
    asked for.  The verdict of the diagonalizability check is an argument
    of the instance.  It serves to run the model on concrete inputs. *)
Module OneByOne.

Definition entry (a : np.ndarray) : Q := np.item a 0 0.

Definition sign (x : Q) : Q := if Qltb x 0 then -1 else 1.

Definition frobenius_norm (a : np.ndarray) : Q := Qabs (entry a).

(** What [map_a_b] records here: the two maps it was given. *)
Definition maps : Type := (np.ndarray * np.ndarray)%type.

Definition base (verdict : np.ndarray -> bool) : Base := {|
  transform := maps;
  Procrustes_init := fun a b translate scale preserve_symmetry hide_padding
                         translate_symmetrically =>
    {| array_a := a; array_b := b; translate := translate; scale := scale;
       preserve_symmetry := preserve_symmetry; hide_padding := hide_padding;
       translate_symmetrically := translate_symmetrically;
       transformation := ([], []) |};
  is_diagonalizable := verdict;
  eigenvalue_decomposition := fun a => ([entry a], [[1]]);
  singular_value_decomposition := fun a =>
    ([[sign (entry a)]], [Qabs (entry a)], [[1]]);
  double_sided_procrustes_error := fun a b t_left t_right =>
    frobenius_norm
      (np.zip_with (np.zip_with Qminus) (np.dot a t_right) (np.dot t_left b));
  OrthogonalProcrustes_calculate := fun a b _ _ _ =>
    let u := [[sign (entry b)]] in
    (u, np.dot a u,
     frobenius_norm (np.zip_with (np.zip_with Qminus) (np.dot a u) b),
     ([], []));
  map_a_b := fun t1 t2 _ _ self =>
    {| array_a := array_a self; array_b := array_b self;
       translate := translate self; scale := scale self;
       preserve_symmetry := preserve_symmetry self;
       hide_padding := hide_padding self;
       translate_symmetrically := translate_symmetrically self;
       transformation := (t1, t2) |}
|}.

(** The instance whose check accepts every array, and the one whose check
    rejects every array. *)
Definition accepting : Base := base (fun _ => true).
Definition rejecting : Base := base (fun _ => false).

(** An instance as the constructor leaves it with its default flags. *)
Definition instance (a b : np.ndarray) : Procrustes maps :=
  @Procrustes_init accepting a b false false true true false.

End OneByOne.

(* ================================================================= *)
(** ** A concrete base class on diagonal 2 x 2 arrays *)

(** Modelled from the spec: the base-class methods, which are not among
    the sources, on diagonal arrays [[[x, 0], [0, y]]].  There the bases of
    the decompositions are the identity or the exchange of the two axes:
    the eigenvalues [x], [y] are listed in decreasing order (the order the
    tests of [eigenvalue_decomposition] expect) and the singular values
    [|x|], [|y|] in decreasing order, the basis being the identity when
    this keeps the order of the diagonal and the exchange otherwise, with
    the signs in [v_trans].  The error of section 4.5 is the Frobenius norm
    of [a . t_right - t_left . b], the square root being exact when the sum
    of the squares is the square of a rational and rounded down otherwise.
    The orthogonal matrix closest to an orthogonal matrix is that matrix,
    and for the zero matrix the closed form through the SVD gives the
    identity.  Every array passes the diagonalizability check.  It serves
    to run the model on concrete inputs. *)
Module Diagonal.

Definition identity : np.ndarray := [[1; 0]; [0; 1]].

Definition exchange : np.ndarray := [[0; 1]; [1; 0]].

Definition first (a : np.ndarray) : Q := np.item a 0 0.

Definition second (a : np.ndarray) : Q := np.item a 1 1.

(** The square root, rounded down to the denominator of its argument. *)
Definition Qsqrt (q : Q) : Q :=
  Z.sqrt (Qnum q * Zpos (Qden q)) # Qden q.

Definition sum_of_squares (a : np.ndarray) : Q :=
  fold_right (fun row s => fold_right (fun x t => x * x + t) s row) 0 a.

Definition frobenius_norm (a : np.ndarray) : Q := Qsqrt (sum_of_squares a).

Definition is_zero (a : np.ndarray) : bool :=
  forallb (forallb (fun x => Qeq_bool x 0)) a.

Definition base : Base := {|
  transform := OneByOne.maps;
  Procrustes_init := @Procrustes_init OneByOne.accepting;
  is_diagonalizable := fun _ => true;
  eigenvalue_decomposition := fun a =>
    if Qle_bool (second a) (first a)
    then ([first a; second a], identity)
    else ([second a; first a], exchange);
  singular_value_decomposition := fun a =>
    if Qle_bool (Qabs (second a)) (Qabs (first a))
    then (identity, [Qabs (first a); Qabs (second a)],
          [[OneByOne.sign (first a); 0]; [0; OneByOne.sign (second a)]])
    else (exchange, [Qabs (second a); Qabs (first a)],
          [[0; OneByOne.sign (second a)]; [OneByOne.sign (first a); 0]]);
  double_sided_procrustes_error := fun a b t_left t_right =>
    frobenius_norm
      (np.zip_with (np.zip_with Qminus) (np.dot a t_right) (np.dot t_left b));
  OrthogonalProcrustes_calculate := fun a b _ _ _ =>
    let u := if is_zero b then identity else b in
    (u, np.dot a u,
     frobenius_norm (np.zip_with (np.zip_with Qminus) (np.dot a u) b),
     ([], []));
  map_a_b := @map_a_b OneByOne.accepting
|}.

(** An instance as the constructor leaves it with its default flags. *)
Definition instance (a b : np.ndarray) : Procrustes OneByOne.maps :=
  @Procrustes_init base a b false false true true false.

End Diagonal.

(* ================================================================= *)
(** * Properties *)

(** ** Scalar comparisons *)

Lemma Qltb_lt (x y : Q) : Qltb x y = true <-> x < y.
Proof.
  unfold Qltb. rewrite negb_true_iff.
  split; intro Hxy.
  - apply Qnot_le_lt. intro Hle.
    apply Qle_bool_iff in Hle. congruence.
  - destruct (Qle_bool y x) eqn:E; [|reflexivity].
    apply Qle_bool_iff in E. exfalso. now apply (Qlt_not_le x y).
Qed.

Lemma Qltb_ge (x y : Q) : Qltb x y = false <-> y <= x.
Proof.
  unfold Qltb. rewrite negb_false_iff. apply Qle_bool_iff.
Qed.

Lemma Qgeb_ge (x y : Q) : Qgeb x y = true <-> y <= x.
Proof. unfold Qgeb. apply Qle_bool_iff. Qed.

Lemma Qgeb_lt (x y : Q) : Qgeb x y = false <-> x < y.
Proof.
  unfold Qgeb. rewrite <- Qltb_lt. unfold Qltb.
  now rewrite negb_true_iff.
Qed.

(** ** [itertools.product] enumerates the sign vectors, in order *)

Section Product.

Context {A : Type}.
Variable pool : list A.

Lemma extend_app (l l' : list (list A)) :
  itertools.extend pool (l ++ l')
  = itertools.extend pool l ++ itertools.extend pool l'.
Proof. unfold itertools.extend. apply flat_map_app. Qed.

Lemma extend_cons (y : A) (l : list (list A)) :
  itertools.extend pool (map (cons y) l)
  = map (cons y) (itertools.extend pool l).
Proof.
  unfold itertools.extend.
  induction l as [|x l IH]; simpl; [reflexivity|].
  rewrite IH, map_app, map_map. reflexivity.
Qed.

Lemma extend_prefix_all (heads : list A) (l : list (list A)) :
  itertools.extend pool (prefix_all heads l)
  = prefix_all heads (itertools.extend pool l).
Proof.
  unfold prefix_all.
  induction heads as [|y heads IH]; simpl; [reflexivity|].
  now rewrite extend_app, extend_cons, IH.
Qed.

Lemma extend_unit : itertools.extend pool [[]] = prefix_all pool [[]].
Proof.
  unfold itertools.extend, prefix_all. simpl. rewrite app_nil_r.
  induction pool as [|y p IH]; simpl; [reflexivity|].
  now rewrite IH.
Qed.

(** The tuples of length [n + 1] are the tuples of length [n] prefixed by
    each element of the pool, the first component varying slowest. *)
Lemma product_S (n : nat) :
  itertools.product pool (S n) = prefix_all pool (itertools.product pool n).
Proof.
  induction n as [|n IH].
  - apply extend_unit.
  - change (itertools.product pool (S (S n)))
      with (itertools.extend pool (itertools.product pool (S n))).
    rewrite IH at 1. rewrite extend_prefix_all. reflexivity.
Qed.

End Product.

Lemma product_signs_S (n : nat) :
  itertools.product [-1; 1] (S n)
  = map (cons (-1)) (itertools.product [-1; 1] n)
    ++ map (cons 1) (itertools.product [-1; 1] n).
Proof.
  rewrite product_S. unfold prefix_all. simpl. now rewrite app_nil_r.
Qed.

Lemma product_signs_length (n : nat) :
  List.length (itertools.product [-1; 1] n) = (2 ^ n)%nat.
Proof.
  induction n as [|n IH]; [reflexivity|].
  rewrite product_signs_S, length_app, !length_map, IH.
  simpl. lia.
Qed.

Lemma product_signs_spec (n : nat) (d : list Q) :
  In d (itertools.product [-1; 1] n) <-> sign_vector n d.
Proof.
  revert d. induction n as [|n IH]; intro d.
  - simpl. unfold sign_vector. split.
    + intros [<-|[]]. split; [reflexivity|constructor].
    + intros [Hlen _]. left. symmetry. now apply length_zero_iff_nil.
  - rewrite product_signs_S, in_app_iff, !in_map_iff. unfold sign_vector.
    split.
    + intros [[t [<- Ht]]|[t [<- Ht]]]; apply IH in Ht;
        destruct Ht as [Hlen Hall]; (split; [simpl; now rewrite Hlen|]);
        constructor; auto.
    + intros [Hlen Hall]. destruct d as [|x t]; [discriminate|].
      inversion Hall as [|? ? Hx Ht]; subst.
      assert (Hin : In t (itertools.product [-1; 1] n)).
      { apply IH. split; [now injection Hlen|assumption]. }
      destruct Hx as [->| ->]; [left|right]; exists t; auto.
Qed.

Lemma lex_sorted_map_cons (x : Q) (l : list (list Q)) :
  StronglySorted lex_lt l -> StronglySorted lex_lt (map (cons x) l).
Proof.
  induction 1 as [|d l Hs IH Hd]; simpl; constructor; [assumption|].
  rewrite Forall_forall in *. intros d' Hin.
  apply in_map_iff in Hin. destruct Hin as [t [<- Ht]].
  apply lex_tail. now apply Hd.
Qed.

Lemma StronglySorted_app {X : Type} (R : X -> X -> Prop) (l l' : list X) :
  StronglySorted R l -> StronglySorted R l' ->
  (forall x y, In x l -> In y l' -> R x y) ->
  StronglySorted R (l ++ l').
Proof.
  induction 1 as [|a l Hs IH Ha]; intros Hl' Hcross; simpl; [assumption|].
  constructor.
  - apply IH; [assumption|]. intros x y Hx Hy. apply Hcross; simpl; auto.
  - apply Forall_app. split; [assumption|].
    apply Forall_forall. intros y Hy. apply Hcross; simpl; auto.
Qed.

(** The enumeration is strictly increasing for the order of tuples, with
    [-1] before [1]: it is the lexicographic enumeration, and it lists no
    sign vector twice. *)
Lemma product_signs_sorted (n : nat) :
  StronglySorted lex_lt (itertools.product [-1; 1] n).
Proof.
  induction n as [|n IH].
  - repeat constructor.
  - rewrite product_signs_S. apply StronglySorted_app.
    + now apply lex_sorted_map_cons.
    + now apply lex_sorted_map_cons.
    + intros x y Hx Hy.
      apply in_map_iff in Hx. destruct Hx as [t [<- _]].
      apply in_map_iff in Hy. destruct Hy as [t' [<- _]].
      apply lex_head. reflexivity.
Qed.

(** ** The loop of the sign search *)

Section Search.

Context `{B : Base}.
Variable self : Procrustes transform.
Variable tol : Q.

(** The three ways a turn of the loop can go. *)
Lemma search_body_spec (i : nat) (s : np.ndarray * Q) :
  search_body self tol i s =
  if Qltb (trial_error self i) tol then Break (trial self i)
  else if Qltb (trial_error self i) (snd s) then Next (trial self i)
  else Next s.
Proof. destruct s as [u e]. reflexivity. Qed.

Lemma sign_search_unfold :
  sign_search self tol =
  for_range (search_body self tol) (seq 0 (trial_count self))
    (svd_u (array_a self), sentinel).
Proof.
  unfold sign_search, search_body, trial_count, sign_patterns, search_dim,
    svd_u, svd_sigma.
  destruct (singular_value_decomposition (array_a self)) as [[u_a sigma_a] va].
  destruct (singular_value_decomposition (array_b self)) as [[u_b sigma_b] vb].
  reflexivity.
Qed.

(** The loop stops on the first trial below the tolerance, whatever the
    state it has reached, and runs no trial after it. *)
Lemma for_range_break (n a i : nat) (s : np.ndarray * Q) :
  (a <= i < a + n)%nat ->
  (forall j, (a <= j < i)%nat -> tol <= trial_error self j) ->
  trial_error self i < tol ->
  for_range (search_body self tol) (seq a n) s
  = (trial self i, seq a (S i - a)).
Proof.
  revert a s. induction n as [|n IH]; intros a s Hi Hbefore Hlt; [lia|].
  cbn [seq for_range]. rewrite search_body_spec.
  destruct (Nat.eq_dec a i) as [->|Hne].
  - apply Qltb_lt in Hlt. rewrite Hlt.
    replace (S i - i)%nat with 1%nat by lia. reflexivity.
  - assert (Ha : Qltb (trial_error self a) tol = false).
    { apply Qltb_ge. apply Hbefore. lia. }
    rewrite Ha.
    replace (S i - a)%nat with (S (S i - S a)) by lia.
    destruct (Qltb (trial_error self a) (snd s));
      (rewrite (IH (S a)); [reflexivity|lia| |assumption]);
      intros j Hj; apply Hbefore; lia.
Qed.

(** Without a trial below the tolerance every trial of the range is run. *)
Lemma for_range_run_all (n a : nat) (s : np.ndarray * Q) :
  (forall j, (a <= j < a + n)%nat -> tol <= trial_error self j) ->
  snd (for_range (search_body self tol) (seq a n) s) = seq a n.
Proof.
  revert a s. induction n as [|n IH]; intros a s Hall; [reflexivity|].
  simpl. rewrite search_body_spec.
  assert (Ha : Qltb (trial_error self a) tol = false).
  { apply Qltb_ge. apply Hall. lia. }
  rewrite Ha.
  destruct (Qltb (trial_error self a) (snd s)).
  - specialize (IH (S a) (trial self a)).
    destruct (for_range _ (seq (S a) n) (trial self a)) as [r run].
    simpl in *. rewrite IH; [reflexivity|]. intros j Hj. apply Hall. lia.
  - specialize (IH (S a) s).
    destruct (for_range _ (seq (S a) n) s) as [r run].
    simpl in *. rewrite IH; [reflexivity|]. intros j Hj. apply Hall. lia.
Qed.

(** Without a trial below the tolerance the loop keeps its starting pair
    when no trial beats the starting error, and otherwise ends on the first
    trial of least error. *)
Lemma for_range_minimum (n a : nat) (s : np.ndarray * Q) :
  (forall j, (a <= j < a + n)%nat -> tol <= trial_error self j) ->
  let r := fst (for_range (search_body self tol) (seq a n) s) in
  (r = s /\ forall j, (a <= j < a + n)%nat -> snd s <= trial_error self j)
  \/ (exists i, (a <= i < a + n)%nat /\ r = trial self i
        /\ trial_error self i < snd s
        /\ (forall j, (a <= j < a + n)%nat ->
                      trial_error self i <= trial_error self j)
        /\ (forall j, (a <= j < i)%nat ->
                      trial_error self i < trial_error self j)).
Proof.
  revert a s. induction n as [|n IH]; intros a s Hall; simpl.
  - left. split; [reflexivity|]. intros j Hj. lia.
  - rewrite search_body_spec.
    assert (Ha : Qltb (trial_error self a) tol = false).
    { apply Qltb_ge. apply Hall. lia. }
    rewrite Ha.
    destruct (Qltb (trial_error self a) (snd s)) eqn:Hs.
    + apply Qltb_lt in Hs.
      specialize (IH (S a) (trial self a)).
      destruct (for_range _ (seq (S a) n) (trial self a)) as [r run].
      simpl in *.
      destruct IH as [[-> Hmin]|[i [Hi [-> [Hlt [Hmin Hfirst]]]]]].
      * intros j Hj. apply Hall. lia.
      * right. exists a. repeat split; try lia; try assumption.
        intros j Hj. destruct (Nat.eq_dec j a) as [->|Hne].
        -- apply Qle_refl.
        -- apply Hmin. lia.
      * right. exists i. repeat split; try lia.
        -- lra.
        -- intros j Hj. destruct (Nat.eq_dec j a) as [->|Hne].
           ++ lra.
           ++ apply Hmin. lia.
        -- intros j Hj. destruct (Nat.eq_dec j a) as [->|Hne].
           ++ assumption.
           ++ apply Hfirst. lia.
    + apply Qltb_ge in Hs.
      specialize (IH (S a) s).
      destruct (for_range _ (seq (S a) n) s) as [r run].
      simpl in *.
      destruct IH as [[-> Hmin]|[i [Hi [-> [Hlt [Hmin Hfirst]]]]]].
      * intros j Hj. apply Hall. lia.
      * left. split; [reflexivity|].
        intros j Hj. destruct (Nat.eq_dec j a) as [->|Hne].
        -- assumption.
        -- apply Hmin. lia.
      * right. exists i. repeat split; try lia; try assumption.
        -- intros j Hj. destruct (Nat.eq_dec j a) as [->|Hne].
           ++ lra.
           ++ apply Hmin. lia.
        -- intros j Hj. destruct (Nat.eq_dec j a) as [->|Hne].
           ++ lra.
           ++ apply Hfirst. lia.
Qed.

End Search.

(** ** The two blocks and the four ways through [calculate] *)

Section Calculate.

Context `{B : Base}.
Variable self : Procrustes transform.

Lemma best_block_eq (tol : Q) :
  best_block self tol =
  (search_u self tol, search_error self tol,
   np.dot (np.dot (np.T (search_u self tol)) (array_a self))
          (search_u self tol)).
Proof.
  unfold best_block, search_u, search_error.
  destruct (fst (sign_search self tol)) as [u e]. reflexivity.
Qed.

Lemma approx_u_eq :
  approx_u self =
  np.setitem_mask (ortho_u self)
    (np.less (np.absolute (ortho_u self)) 1e-8) 0.
Proof.
  unfold approx_u, approx_block, ortho_u, umeyama, eig_u.
  destruct (eigenvalue_decomposition (array_a self)) as [sa ua].
  destruct (eigenvalue_decomposition (array_b self)) as [sb ub].
  cbn [snd].
  destruct (np.shape _) as [n m]. cbn [fst].
  destruct (OrthogonalProcrustes_calculate _ _ _ _ _) as [[[u t] e] ts].
  reflexivity.
Qed.

Lemma approx_block_eq :
  approx_block self =
  (approx_u self,
   double_sided_procrustes_error (array_a self) (array_b self)
     (approx_u self) (approx_u self),
   np.dot (array_a self) (approx_u self)).
Proof.
  unfold approx_u, approx_block.
  destruct (eigenvalue_decomposition (array_a self)) as [sa ua].
  destruct (eigenvalue_decomposition (array_b self)) as [sb ub].
  destruct (np.shape _) as [n m].
  destruct (OrthogonalProcrustes_calculate _ _ _ _ _) as [[[u t] e] ts].
  reflexivity.
Qed.

Lemma approx_error_eq :
  approx_error self =
  double_sided_procrustes_error (array_a self) (array_b self)
    (approx_u self) (approx_u self).
Proof. unfold approx_error. now rewrite approx_block_eq. Qed.

(** Neither block runs: the [else] branch raises. *)
Lemma calculate_none (return_u_approx : bool) (tol : Q) :
  effective_approx self return_u_approx = false ->
  calculate self return_u_approx false tol = inl (ValueError msg_select).
Proof. intro He. unfold calculate. rewrite He. reflexivity. Qed.

(** Only the sign search runs. *)
Lemma calculate_best_only (return_u_approx : bool) (tol : Q) :
  effective_approx self return_u_approx = false ->
  calculate self return_u_approx true tol =
  inr ({| u_approx := None;
          u_best := Some (search_u self tol);
          array_transformed_approx := None;
          array_transformed_best :=
            Some (np.dot (np.dot (np.T (search_u self tol)) (array_a self))
                         (search_u self tol));
          error_approx := None;
          error_best := Some (search_error self tol);
          applied_transformation :=
            transformation (mapped self (search_u self tol)) |},
       mapped self (search_u self tol)).
Proof.
  intro He. unfold calculate, run_blocks, returned. rewrite He.
  rewrite best_block_eq. reflexivity.
Qed.

(** Only the spectral approximation runs. *)
Lemma calculate_approx_only (return_u_approx : bool) (tol : Q) :
  effective_approx self return_u_approx = true ->
  calculate self return_u_approx false tol =
  inr ({| u_approx := Some (approx_u self);
          u_best := None;
          array_transformed_approx :=
            Some (np.dot (array_a self) (approx_u self));
          array_transformed_best := None;
          error_approx := Some (approx_error self);
          error_best := None;
          applied_transformation :=
            transformation (mapped self (approx_u self)) |},
       mapped self (approx_u self)).
Proof.
  intro He. unfold calculate, run_blocks, returned. rewrite He.
  rewrite approx_error_eq, approx_block_eq. reflexivity.
Qed.

(** Both blocks run: the selection between the two candidates. *)
Lemma calculate_both (return_u_approx : bool) (tol : Q) :
  effective_approx self return_u_approx = true ->
  calculate self return_u_approx true tol =
  let chosen :=
    if Qgeb (approx_error self) (search_error self tol)
    then (search_u self tol, search_error self tol)
    else (approx_u self, approx_error self) in
  inr ({| u_approx := Some (approx_u self);
          u_best := Some (fst chosen);
          array_transformed_approx :=
            Some (np.dot (array_a self) (approx_u self));
          array_transformed_best :=
            Some (np.dot (np.dot (np.T (search_u self tol)) (array_a self))
                         (search_u self tol));
          error_approx := Some (approx_error self);
          error_best := Some (snd chosen);
          applied_transformation :=
            transformation (mapped self (fst chosen)) |},
       mapped self (fst chosen)).
Proof.
  intro He. unfold calculate, run_blocks, returned. rewrite He.
  rewrite approx_error_eq, approx_block_eq, best_block_eq.
  cbn [andb option_map fst snd l_error_approx l_error_best need bind
       l_u_best l_u_approx].
  destruct (Qgeb _ _); reflexivity.
Qed.

(** The flag stays as given exactly when both arrays pass the check. *)
Lemma effective_approx_true (return_u_approx : bool) :
  effective_approx self return_u_approx = true <->
  return_u_approx = true
  /\ is_diagonalizable (array_a self) = true
  /\ is_diagonalizable (array_b self) = true.
Proof.
  unfold effective_approx.
  destruct (is_diagonalizable (array_a self)),
    (is_diagonalizable (array_b self)), return_u_approx; simpl; intuition.
Qed.

Lemma effective_approx_rejected (return_u_approx : bool) :
  is_diagonalizable (array_a self) = false
  \/ is_diagonalizable (array_b self) = false ->
  effective_approx self return_u_approx = false.
Proof.
  unfold effective_approx.
  intros [-> | ->]; simpl; [reflexivity|].
  now rewrite orb_true_r.
Qed.

End Calculate.

(** ** Which calls return and which raise *)

(** C1, as amended.  When [array_a] or [array_b] fails the
    diagonalizability check, the approximation is skipped: asked for the
    approximate transformation alone, [calculate] raises the [ValueError]
    of its last branch; asked for both, it returns, with [u_approx =
    None]. *)
Theorem rejected_pair_skips_approximation `{B : Base}
  (self : Procrustes transform) (tol : Q) :
  is_diagonalizable (array_a self) = false
  \/ is_diagonalizable (array_b self) = false ->
  calculate self true false tol = inl (ValueError msg_select)
  /\ returns_without_approx self true true tol.
Proof.
  intro Hrej.
  pose proof (effective_approx_rejected self true Hrej) as He.
  split.
  - now apply calculate_none.
  - unfold returns_without_approx.
    rewrite (calculate_best_only self true tol He).
    eexists. eexists. split; reflexivity.
Qed.

(** C1, witness: a pair of 1 x 1 arrays that the check rejects. *)
Lemma rejected_pair_skips_approximation_witness :
  let self := OneByOne.instance [[1]] [[1]] in
  @calculate OneByOne.rejecting self true false 1e-12
    = inl (ValueError msg_select)
  /\ @returns_without_approx OneByOne.rejecting self true true 1e-12.
Proof.
  intro self.
  apply (@rejected_pair_skips_approximation OneByOne.rejecting self 1e-12).
  left. reflexivity.
Defined.

(** C1 as stated fails: on a symmetric pair that the check rejects,
    [calculate(return_u_approx=True, return_u_best=False)] does not
    return. *)
Lemma approx_only_on_rejected_pair_raises :
  let self := OneByOne.instance [[1]] [[1]] in
  np.T (array_a self) = array_a self
  /\ np.T (array_b self) = array_b self
  /\ @is_diagonalizable OneByOne.rejecting (array_a self) = false
  /\ ~ @returns_without_approx OneByOne.rejecting self true false 1e-12.
Proof.
  intro self. repeat split.
  intros [out [self' [Hret _]]].
  vm_compute in Hret. discriminate Hret.
Qed.

(** C9.  With neither transformation selected [calculate] raises the
    [ValueError] of its last branch; whenever at least one block runs (the
    approximation, which needs the flag and the two checks, or the sign
    search), it returns its tuple; and it raises only when no block
    runs. *)
Theorem at_least_one_transformation `{B : Base}
  (self : Procrustes transform)
  (return_u_approx return_u_best : bool) (tol : Q) :
  calculate self false false tol = inl (ValueError msg_select)
  /\ (effective_approx self return_u_approx || return_u_best = true ->
      exists out self',
        calculate self return_u_approx return_u_best tol = inr (out, self'))
  /\ (effective_approx self return_u_approx || return_u_best = false ->
      calculate self return_u_approx return_u_best tol
      = inl (ValueError msg_select)).
Proof.
  split; [|split].
  - apply calculate_none. unfold effective_approx.
    now destruct (_ || _).
  - intro Hrun.
    destruct (effective_approx self return_u_approx) eqn:He;
      destruct return_u_best; try discriminate Hrun.
    + rewrite (calculate_both self _ tol He). eauto.
    + rewrite (calculate_approx_only self _ tol He). eauto.
    + rewrite (calculate_best_only self _ tol He). eauto.
  - intro Hnone. apply orb_false_iff in Hnone. destruct Hnone as [He ->].
    now apply calculate_none.
Qed.

(** C9, witness: the default call on a pair of 1 x 1 arrays. *)
Lemma at_least_one_transformation_witness :
  let self := OneByOne.instance [[3]] [[1]] in
  exists out self',
    @calculate OneByOne.accepting self false true 1e-12 = inr (out, self').
Proof.
  intro self.
  apply (proj1 (proj2 (@at_least_one_transformation OneByOne.accepting
                         self false true 1e-12))).
  reflexivity.
Defined.

(** ** The selection between the two candidates *)

(** C5.  When both blocks run, the returned [(u_best, error_best)] is the
    approximate candidate if its error is strictly lower than the error of
    the sign search, and the candidate of the sign search otherwise, in
    particular when the two errors are equal. *)
Theorem selection_keeps_lower_error `{B : Base}
  (self : Procrustes transform) (return_u_approx : bool) (tol : Q) :
  effective_approx self return_u_approx = true ->
  exists out self',
    calculate self return_u_approx true tol = inr (out, self')
    /\ u_approx out = Some (approx_u self)
    /\ error_approx out = Some (approx_error self)
    /\ (approx_error self < search_error self tol ->
        u_best out = Some (approx_u self)
        /\ error_best out = Some (approx_error self))
    /\ (search_error self tol <= approx_error self ->
        u_best out = Some (search_u self tol)
        /\ error_best out = Some (search_error self tol))
    /\ (approx_error self == search_error self tol ->
        u_best out = Some (search_u self tol)
        /\ error_best out = Some (search_error self tol)).
Proof.
  intro He. rewrite (calculate_both self _ tol He). cbv zeta.
  eexists. eexists. split; [reflexivity|].
  cbn [u_approx error_approx u_best error_best].
  assert (Hkeep : search_error self tol <= approx_error self ->
                  Qgeb (approx_error self) (search_error self tol) = true)
    by (intro; now apply Qgeb_ge).
  split; [reflexivity|]. split; [reflexivity|]. split; [|split].
  - intro Hlt. apply Qgeb_lt in Hlt. rewrite Hlt. split; reflexivity.
  - intro Hle. rewrite (Hkeep Hle). split; reflexivity.
  - intro Htie. rewrite Hkeep; [split; reflexivity|].
    rewrite Htie. apply Qle_refl.
Qed.

(** C5, witness: both candidates on a pair of 1 x 1 arrays. *)
Lemma selection_keeps_lower_error_witness :
  let self := OneByOne.instance [[3]] [[1]] in
  exists out self',
    @calculate OneByOne.accepting self true true 1e-12 = inr (out, self')
    /\ u_approx out = Some (@approx_u OneByOne.accepting self)
    /\ error_approx out = Some (@approx_error OneByOne.accepting self)
    /\ (@approx_error OneByOne.accepting self
          < @search_error OneByOne.accepting self 1e-12 ->
        u_best out = Some (@approx_u OneByOne.accepting self)
        /\ error_best out = Some (@approx_error OneByOne.accepting self))
    /\ (@search_error OneByOne.accepting self 1e-12
          <= @approx_error OneByOne.accepting self ->
        u_best out = Some (@search_u OneByOne.accepting self 1e-12)
        /\ error_best out = Some (@search_error OneByOne.accepting self 1e-12))
    /\ (@approx_error OneByOne.accepting self
          == @search_error OneByOne.accepting self 1e-12 ->
        u_best out = Some (@search_u OneByOne.accepting self 1e-12)
        /\ error_best out
           = Some (@search_error OneByOne.accepting self 1e-12)).
Proof.
  intro self.
  apply (@selection_keeps_lower_error OneByOne.accepting self true 1e-12).
  reflexivity.
Defined.

(** ** The sign search *)

(** C4.  The loop stops on the first trial whose error is below the
    tolerance: the sign search ends with that trial's matrix and error,
    and the trials it ran are the trials up to that one, none after it.  A
    turn whose error is below the tolerance breaks; a turn whose error is
    at least the tolerance and below the best error so far replaces the
    best pair and the loop goes on with the remaining trials; any other
    turn leaves the best pair as it is. *)
Theorem sign_search_short_circuit `{B : Base}
  (self : Procrustes transform) (tol : Q) :
  (forall i, (i < trial_count self)%nat ->
     (forall j, (j < i)%nat -> tol <= trial_error self j) ->
     trial_error self i < tol ->
     sign_search self tol = (trial self i, seq 0 (S i)))
  /\ (forall i s, trial_error self i < tol ->
        search_body self tol i s = Break (trial self i))
  /\ (forall i rest s,
        tol <= trial_error self i -> trial_error self i < snd s ->
        for_range (search_body self tol) (i :: rest) s
        = (fst (for_range (search_body self tol) rest (trial self i)),
           i :: snd (for_range (search_body self tol) rest (trial self i))))
  /\ (forall i s,
        tol <= trial_error self i -> snd s <= trial_error self i ->
        search_body self tol i s = Next s).
Proof.
  repeat split.
  - intros i Hi Hbefore Hlt. rewrite sign_search_unfold.
    rewrite (for_range_break self tol (trial_count self) 0 i);
      [now rewrite Nat.sub_0_r|lia| |assumption].
    intros j Hj. apply Hbefore. lia.
  - intros i s Hlt. rewrite search_body_spec.
    apply Qltb_lt in Hlt. now rewrite Hlt.
  - intros i rest s Hge Hlt. cbn [for_range]. rewrite search_body_spec.
    apply Qltb_ge in Hge. apply Qltb_lt in Hlt. rewrite Hge, Hlt.
    now destruct (for_range _ rest (trial self i)).
  - intros i s Hge Hkeep. rewrite search_body_spec.
    apply Qltb_ge in Hge. apply Qltb_ge in Hkeep. now rewrite Hge, Hkeep.
Qed.

(** C4, witness: on equal 1 x 1 arrays the first trial is exact, and the
    second trial is not run. *)
Lemma sign_search_short_circuit_witness :
  let self := OneByOne.instance [[1]] [[1]] in
  @sign_search OneByOne.accepting self 1e-12
  = (@trial OneByOne.accepting self 0, [0%nat]).
Proof.
  intro self.
  apply (proj1 (@sign_search_short_circuit OneByOne.accepting self 1e-12)).
  - change (0 < 2)%nat. lia.
  - intros j Hj. inversion Hj.
  - vm_compute. reflexivity.
Defined.

(** C6, as amended.  When every trial has an error of at least [1e5] and
    none is below the tolerance, the sign search runs all its trials and
    ends with the pair it started from: the matrix of left singular
    vectors of [array_a], and [1e5].  [calculate] returns this pair as
    [(u_best, error_best)] when the approximation did not run or its error
    is at least [1e5]; when the approximation ran with an error below
    [1e5], [calculate] returns the approximate matrix and its error
    instead. *)
Theorem sentinel_fallback `{B : Base}
  (self : Procrustes transform) (return_u_approx : bool) (tol : Q) :
  (forall i, (i < trial_count self)%nat -> 1e5 <= trial_error self i) ->
  no_early_exit self tol ->
  sign_search self tol
  = ((svd_u (array_a self), 1e5), seq 0 (trial_count self))
  /\ (effective_approx self return_u_approx = false
      \/ 1e5 <= approx_error self ->
      returns_sentinel_pair self return_u_approx tol)
  /\ (effective_approx self return_u_approx = true ->
      approx_error self < 1e5 ->
      returns_approximate self return_u_approx tol).
Proof.
  intros Hbig Hnoexit.
  assert (Hsearch : sign_search self tol
            = ((svd_u (array_a self), 1e5), seq 0 (trial_count self))).
  { rewrite sign_search_unfold.
    pose proof (for_range_run_all self tol (trial_count self) 0
                  (svd_u (array_a self), sentinel)) as Hrun.
    pose proof (for_range_minimum self tol (trial_count self) 0
                  (svd_u (array_a self), sentinel)) as Hmin.
    cbv zeta in Hmin.
    destruct (for_range _ _ _) as [r run]. cbn [fst snd] in *.
    rewrite Hrun by (intros j Hj; apply Hnoexit; lia).
    destruct Hmin as [[-> _]|[i [Hi [_ [Hlt _]]]]].
    - intros j Hj. apply Hnoexit. lia.
    - reflexivity.
    - exfalso. assert (Hi' : (i < trial_count self)%nat) by lia.
      specialize (Hbig i Hi'). unfold sentinel in Hlt. lra. }
  split; [exact Hsearch|].
  assert (Hu : search_u self tol = svd_u (array_a self))
    by (unfold search_u; now rewrite Hsearch).
  assert (He : search_error self tol = 1e5)
    by (unfold search_error; now rewrite Hsearch).
  split.
  - intro Hkeep. unfold returns_sentinel_pair.
    destruct (effective_approx self return_u_approx) eqn:Heff.
    + destruct Hkeep as [Hkeep|Hkeep]; [discriminate Hkeep|].
      rewrite (calculate_both self _ tol Heff). cbv zeta.
      eexists. eexists. split; [reflexivity|]. cbn [u_best error_best].
      rewrite He, Hu.
      assert (Hge : Qgeb (approx_error self) 1e5 = true)
        by now apply Qgeb_ge.
      rewrite Hge. split; reflexivity.
    + rewrite (calculate_best_only self _ tol Heff).
      eexists. eexists. split; [reflexivity|]. cbn [u_best error_best].
      now rewrite He, Hu.
  - intros Heff Hlow. unfold returns_approximate.
    rewrite (calculate_both self _ tol Heff). cbv zeta.
    eexists. eexists. split; [reflexivity|]. cbn [u_best error_best].
    rewrite He.
    assert (Hlt : Qgeb (approx_error self) 1e5 = false)
      by now apply Qgeb_lt.
    rewrite Hlt. split; reflexivity.
Qed.

(** C6, witness: [array_a = [[200000]]] and [array_b = [[0]]], where both
    trials have error 200000, with the sign search alone. *)
Lemma sentinel_fallback_witness :
  let self := OneByOne.instance [[200000]] [[0]] in
  @sign_search OneByOne.accepting self 1e-12
  = ((@svd_u OneByOne.accepting (array_a self), 1e5),
     seq 0 (@trial_count OneByOne.accepting self))
  /\ @returns_sentinel_pair OneByOne.accepting self false 1e-12.
Proof.
  intro self.
  destruct (@sentinel_fallback OneByOne.accepting self false 1e-12)
    as [Hsearch [Hkeep _]].
  - intros i Hi. change (i < 2)%nat in Hi.
    destruct i as [|[|i]]; [vm_compute; discriminate
                           |vm_compute; discriminate|lia].
  - intros i Hi. change (i < 2)%nat in Hi.
    destruct i as [|[|i]]; [vm_compute; discriminate
                           |vm_compute; discriminate|lia].
  - split; [exact Hsearch|]. apply Hkeep. left. reflexivity.
Defined.

(** C6 as stated fails: for [array_a = diag(401880, -401880)] and
    [array_b = diag(401880, -401881)] the four trials have error 1136689
    and none is below the tolerance, the approximate candidate has error
    1, and [calculate], asked for both candidates, returns
    [error_best = 1], not [1e5]. *)
Lemma approximate_pair_replaces_sentinel :
  let self := Diagonal.instance [[401880; 0]; [0; -401880]]
                                [[401880; 0]; [0; -401881]] in
  (forall i, (i < @trial_count Diagonal.base self)%nat ->
             1e5 <= @trial_error Diagonal.base self i)
  /\ @no_early_exit Diagonal.base self 1e-12
  /\ ~ @returns_sentinel_pair Diagonal.base self true 1e-12.
Proof.
  intro self. split; [|split].
  - intros i Hi. change (i < 4)%nat in Hi.
    destruct i as [|[|[|[|i]]]]; try lia; vm_compute; discriminate.
  - intros i Hi. change (i < 4)%nat in Hi.
    destruct i as [|[|[|[|i]]]]; try lia; vm_compute; discriminate.
  - intros (out & self' & Hret & _ & Herr).
    vm_compute in Hret. injection Hret as <- _.
    vm_compute in Herr. discriminate Herr.
Qed.

(** C3, as amended.  The sign patterns are the [2^n] vectors of
    [{-1, +1}^n], [n] the number of singular values of [array_a], each
    listed once, in increasing lexicographic order; trial [i] is
    [U_A . diag(d_i) . U_B'] for the pattern [d_i] of index [i]; when no
    trial has an error below the tolerance, every trial is run; and when,
    besides, some trial has an error below [1e5], the sign search ends
    with the first trial of least error, and [calculate] returns the
    matrix and the error of that trial as [(u_best, error_best)] unless
    the approximation ran with a strictly lower error, in which case it
    returns the approximate matrix and its error. *)
Theorem sign_search_exhaustive_minimum `{B : Base}
  (self : Procrustes transform) (return_u_approx : bool) (tol : Q) :
  (List.length (sign_patterns self) = (2 ^ search_dim self)%nat
   /\ (forall d, In d (sign_patterns self) <-> sign_vector (search_dim self) d)
   /\ StronglySorted lex_lt (sign_patterns self))
  /\ (forall i,
        trial_u self i
        = np.dot (np.dot (svd_u (array_a self))
                         (np.diag (nth i (sign_patterns self) [])))
                 (np.T (svd_u (array_b self))))
  /\ (no_early_exit self tol ->
      search_run self tol = seq 0 (2 ^ search_dim self))
  /\ (no_early_exit self tol ->
      (exists k, (k < trial_count self)%nat /\ trial_error self k < 1e5) ->
      exists i,
        first_minimum self tol i
        /\ (effective_approx self return_u_approx = false
            \/ trial_error self i <= approx_error self ->
            returns_trial self return_u_approx tol i
            /\ returns_first_minimum self return_u_approx tol)
        /\ (effective_approx self return_u_approx = true ->
            approx_error self < trial_error self i ->
            returns_approximate self return_u_approx tol)).
Proof.
  split; [|split; [|split]].
  - unfold sign_patterns. split; [|split].
    + apply product_signs_length.
    + intro d. apply product_signs_spec.
    + apply product_signs_sorted.
  - reflexivity.
  - intro Hnoexit. unfold search_run. rewrite sign_search_unfold.
    apply for_range_run_all. intros j Hj. apply Hnoexit.
    unfold trial_count. lia.
  - intros Hnoexit [k [Hk Hbeat]].
    pose proof (for_range_minimum self tol (trial_count self) 0
                  (svd_u (array_a self), sentinel)) as Hmin.
    cbv zeta in Hmin. rewrite <- sign_search_unfold in Hmin.
    destruct Hmin as [[_ Hkeep]|[i [Hi [Hend [_ [Hleast Hfirst]]]]]].
    + intros j Hj. apply Hnoexit. lia.
    + exfalso. specialize (Hkeep k). cbn [snd] in Hkeep.
      unfold sentinel in Hkeep.
      assert (1e5 <= trial_error self k) by (apply Hkeep; lia). lra.
    + assert (Hi' : (i < trial_count self)%nat) by lia.
      assert (Hleast' : forall j, (j < trial_count self)%nat ->
                          trial_error self i <= trial_error self j)
        by (intros j Hj; apply Hleast; lia).
      assert (Hfirst' : forall j, (j < i)%nat ->
                          trial_error self i < trial_error self j)
        by (intros j Hj; apply Hfirst; lia).
      assert (Hu : search_u self tol = trial_u self i)
        by (unfold search_u; now rewrite Hend).
      assert (He : search_error self tol = trial_error self i)
        by (unfold search_error; now rewrite Hend).
      exists i. split; [|split].
      * unfold first_minimum. repeat split; assumption.
      * intro Hkept.
        assert (Hret : returns_trial self return_u_approx tol i).
        { unfold returns_trial.
          destruct (effective_approx self return_u_approx) eqn:Heff.
          - destruct Hkept as [Hkept|Hkept]; [discriminate Hkept|].
            rewrite (calculate_both self _ tol Heff). cbv zeta.
            eexists. eexists. split; [reflexivity|].
            cbn [u_best error_best]. rewrite He, Hu.
            assert (Hge : Qgeb (approx_error self) (trial_error self i)
                          = true) by now apply Qgeb_ge.
            rewrite Hge. split; reflexivity.
          - rewrite (calculate_best_only self _ tol Heff).
            eexists. eexists. split; [reflexivity|].
            cbn [u_best error_best]. now rewrite He, Hu. }
        split; [exact Hret|].
        exists i. repeat split; assumption.
      * intros Heff Hlow. unfold returns_approximate.
        rewrite (calculate_both self _ tol Heff). cbv zeta.
        eexists. eexists. split; [reflexivity|].
        cbn [u_best error_best]. rewrite He.
        assert (Hlt : Qgeb (approx_error self) (trial_error self i) = false)
          by now apply Qgeb_lt.
        rewrite Hlt. split; reflexivity.
Qed.

(** C3, witness: [array_a = [[3]]], [array_b = [[1]]], where both trials
    have error 2, with the sign search alone. *)
Lemma sign_search_exhaustive_minimum_witness :
  let self := OneByOne.instance [[3]] [[1]] in
  @returns_first_minimum OneByOne.accepting self false 1e-12.
Proof.
  intro self.
  destruct (proj2 (proj2 (proj2
    (@sign_search_exhaustive_minimum OneByOne.accepting self false 1e-12))))
    as [i [_ [Hkept _]]].
  - intros i Hi. change (i < 2)%nat in Hi.
    destruct i as [|[|i]]; [vm_compute; discriminate
                           |vm_compute; discriminate|lia].
  - exists 0%nat. split; [change (0 < 2)%nat; lia|].
    vm_compute. reflexivity.
  - apply Hkept. left. reflexivity.
Defined.

(** C3 as stated fails: for [array_a = diag(10, -10)] and
    [array_b = diag(10, -11)] no trial is below the tolerance and the four
    trials have error 29, the approximate candidate has error 1, and
    [calculate], asked for both candidates, returns the approximate matrix
    with [error_best = 1], the pair of no trial. *)
Lemma approximate_pair_replaces_minimum :
  let self := Diagonal.instance [[10; 0]; [0; -10]] [[10; 0]; [0; -11]] in
  @no_early_exit Diagonal.base self 1e-12
  /\ (exists k, (k < @trial_count Diagonal.base self)%nat
                /\ @trial_error Diagonal.base self k < 1e5)
  /\ ~ @returns_first_minimum Diagonal.base self true 1e-12.
Proof.
  intro self. split; [|split].
  - intros i Hi. change (i < 4)%nat in Hi.
    destruct i as [|[|[|[|i]]]]; try lia; vm_compute; discriminate.
  - exists 0%nat. split; [change (0 < 4)%nat; lia|].
    vm_compute. reflexivity.
  - intros (i & Hi & (out & self' & Hret & _ & Herr) & _).
    vm_compute in Hret. injection Hret as <- _.
    change (i < 4)%nat in Hi.
    destruct i as [|[|[|[|i]]]]; try lia;
      vm_compute in Herr; discriminate Herr.
Qed.

(** The pair the sign search starts from is the pair of no trial: for
    [array_a = [[200000]]] and [array_b = [[0]]] no trial is below the
    tolerance, both trials have error 200000, and the sign search ends
    with the error [1e5]. *)
Lemma sign_search_result_is_no_trial :
  let self := OneByOne.instance [[200000]] [[0]] in
  @no_early_exit OneByOne.accepting self 1e-12
  /\ ~ (exists i, @first_minimum OneByOne.accepting self 1e-12 i).
Proof.
  intro self. split.
  - intros i Hi. change (i < 2)%nat in Hi.
    destruct i as [|[|i]]; [vm_compute; discriminate
                           |vm_compute; discriminate|lia].
  - intros [i [Hi [Hend _]]]. change (i < 2)%nat in Hi.
    destruct i as [|[|i]]; [| |lia];
      vm_compute in Hend; discriminate Hend.
Qed.

(** ** Arrays entry by entry *)

Lemma zip_with_map_r {X Y Z : Type} (f : X -> Y -> Z) (g : X -> Y)
  (l : list X) :
  np.zip_with f l (map g l) = map (fun x => f x (g x)) l.
Proof. induction l as [|x l IH]; simpl; [reflexivity|now rewrite IH]. Qed.

Lemma zip_with_length {X Y Z : Type} (f : X -> Y -> Z)
  (l : list X) (l' : list Y) :
  List.length l = List.length l' ->
  List.length (np.zip_with f l l') = List.length l.
Proof.
  revert l'. induction l as [|x l IH]; intros [|y l'] Hlen; simpl;
    try reflexivity; try discriminate.
  now rewrite IH by (now injection Hlen).
Qed.

Lemma zip_with_nth {X Y Z : Type} (f : X -> Y -> Z)
  (l : list X) (l' : list Y) (i : nat) (dz : Z) (dx : X) (dy : Y) :
  (i < List.length l)%nat -> (i < List.length l')%nat ->
  nth i (np.zip_with f l l') dz = f (nth i l dx) (nth i l' dy).
Proof.
  revert l' i. induction l as [|x l IH]; intros [|y l'] i Hi Hi';
    simpl in *; try lia.
  destruct i as [|i]; [reflexivity|]. apply IH; lia.
Qed.

Lemma has_shape_row (n m : nat) (a : np.ndarray) (i : nat) :
  has_shape n m a -> (i < n)%nat -> List.length (nth i a []) = m.
Proof.
  intros [Hlen Hrows] Hi. rewrite Forall_forall in Hrows.
  apply Hrows. apply nth_In. lia.
Qed.

Lemma absolute_shape (n m : nat) (a : np.ndarray) :
  has_shape n m a -> has_shape n m (np.absolute a).
Proof.
  intros [Hlen Hrows]. unfold np.absolute. split.
  - now rewrite length_map.
  - apply Forall_map. rewrite Forall_forall in *. intros row Hrow.
    rewrite length_map. now apply Hrows.
Qed.

Lemma absolute_item (a : np.ndarray) (i j : nat) :
  np.item (np.absolute a) i j = Qabs (np.item a i j).
Proof.
  unfold np.item, np.absolute.
  change (@nil Q) with (map Qabs []) at 1. rewrite map_nth.
  change 0 with (Qabs 0) at 1. now rewrite map_nth.
Qed.

Lemma T_shape (n m : nat) (a : np.ndarray) :
  has_shape n m a -> (0 < n)%nat -> has_shape m n (np.T a).
Proof.
  intros [Hlen Hrows] Hn. unfold np.T, np.shape. cbn [snd].
  assert (Hhd : List.length (hd [] a) = m).
  { destruct a as [|row a]; [simpl in Hlen; lia|].
    now inversion Hrows. }
  rewrite Hhd. split.
  - now rewrite length_map, length_seq.
  - apply Forall_map. apply Forall_forall. intros j _.
    now rewrite length_map.
Qed.

(** [a.T[j, i] = a[i, j]]. *)
Lemma T_item (n m : nat) (a : np.ndarray) (i j : nat) :
  has_shape n m a -> (i < n)%nat -> (j < m)%nat ->
  np.item (np.T a) j i = np.item a i j.
Proof.
  intros [Hlen Hrows] Hi Hj. unfold np.item, np.T, np.shape. cbn [snd].
  assert (Hhd : List.length (hd [] a) = m).
  { destruct a as [|row a]; [simpl in Hlen; lia|].
    now inversion Hrows. }
  rewrite Hhd.
  rewrite (nth_indep _ [] (map (fun row => nth 0%nat row 0) a))
    by now rewrite length_map, length_seq.
  rewrite (map_nth (fun j => map (fun row => nth j row 0) a) (seq 0 m) 0%nat j).
  rewrite seq_nth by assumption. cbn [Nat.add].
  rewrite (nth_indep _ 0 (nth j [] 0)) by (rewrite length_map; lia).
  now rewrite (map_nth (fun row => nth j row 0) a [] i).
Qed.

(** [np.multiply(a, b)[i, j] = a[i, j] * b[i, j]]. *)
Lemma multiply_item (n m : nat) (a b : np.ndarray) (i j : nat) :
  has_shape n m a -> has_shape n m b -> (i < n)%nat -> (j < m)%nat ->
  np.item (np.multiply a b) i j = np.item a i j * np.item b i j.
Proof.
  intros Ha Hb Hi Hj. unfold np.item, np.multiply.
  rewrite (zip_with_nth _ a b i [] [] [])
    by (destruct Ha, Hb; lia).
  apply zip_with_nth.
  - now rewrite (has_shape_row n m a i).
  - now rewrite (has_shape_row n m b i).
Qed.

(** [np.eye(n)] is the identity matrix. *)
Lemma eye_item (n i j : nat) :
  (i < n)%nat -> (j < n)%nat ->
  np.item (np.eye n) i j = if Nat.eqb i j then 1 else 0.
Proof.
  intros Hi Hj. unfold np.item, np.eye, np.diag. cbv zeta.
  rewrite repeat_length.
  rewrite (nth_indep _ [] ((fun i => map (fun j => if Nat.eqb i j
             then nth i (repeat 1 n) 0 else 0) (seq 0 n)) 0%nat))
    by now rewrite length_map, length_seq.
  rewrite (map_nth (fun i => map (fun j => if Nat.eqb i j
             then nth i (repeat 1 n) 0 else 0) (seq 0 n))).
  rewrite seq_nth by assumption. cbn [Nat.add].
  rewrite (nth_indep _ 0 ((fun j => if Nat.eqb i j
             then nth i (repeat 1 n) 0 else 0) 0%nat))
    by now rewrite length_map, length_seq.
  rewrite (map_nth (fun j => if Nat.eqb i j
             then nth i (repeat 1 n) 0 else 0)).
  rewrite seq_nth by assumption. cbn [Nat.add].
  destruct (Nat.eqb i j); [|reflexivity].
  apply nth_repeat_lt. assumption.
Qed.

(** The masked assignment of [calculate] is the snap to zero. *)
Lemma setitem_mask_snap (u : np.ndarray) :
  np.setitem_mask u (np.less (np.absolute u) 1e-8) 0 = snap_to_zero u.
Proof.
  unfold np.setitem_mask, np.less, np.absolute, snap_to_zero.
  rewrite map_map.
  rewrite (map_ext _ (fun row => map (fun x => Qltb (Qabs x) 1e-8) row))
    by (intro row; apply map_map).
  rewrite zip_with_map_r. apply map_ext. intro row.
  apply zip_with_map_r.
Qed.

Lemma snap_to_zero_item (u : np.ndarray) (i j : nat) :
  np.item (snap_to_zero u) i j =
  if Qltb (Qabs (np.item u i j)) 1e-8 then 0 else np.item u i j.
Proof.
  unfold np.item, snap_to_zero.
  set (f := fun x : Q => if Qltb (Qabs x) 1e-8 then 0 else x).
  change (@nil Q) with (map f []) at 1. rewrite map_nth.
  change 0 with (f 0) at 1. now rewrite map_nth.
Qed.

Lemma snap_to_zero_entries (u : np.ndarray) :
  Forall (Forall (fun x => x = 0 \/ 1e-8 <= Qabs x)) (snap_to_zero u).
Proof.
  unfold snap_to_zero. apply Forall_map. apply Forall_forall. intros row _.
  apply Forall_map. apply Forall_forall. intros x _.
  destruct (Qltb (Qabs x) 1e-8) eqn:E; [now left|].
  right. now apply Qltb_ge in E.
Qed.

(** ** The spectral approximation *)

(** C7.  The alignment matrix has the entries [|U_A[i,j]| * |U_B[j,i]|]:
    it is the elementwise product of [|U_A|] and the transpose of [|U_B|].
    The one-sided solver is called on the identity matrix of the size of
    the alignment matrix and on the alignment matrix; [u_approx] is the
    matrix it returns, with every entry of magnitude below [1e-8] set to
    [0] and the other entries kept; and this is the [u_approx] that
    [calculate] returns when the approximation runs. *)
Theorem spectral_approximation `{B : Base}
  (self : Procrustes transform)
  (return_u_approx return_u_best : bool) (tol : Q) :
  umeyama self
  = np.multiply (np.absolute (eig_u (array_a self)))
                (np.T (np.absolute (eig_u (array_b self))))
  /\ (forall n i j,
        has_shape n n (eig_u (array_a self)) ->
        has_shape n n (eig_u (array_b self)) ->
        (i < n)%nat -> (j < n)%nat ->
        np.item (umeyama self) i j
        = Qabs (np.item (eig_u (array_a self)) i j)
          * Qabs (np.item (eig_u (array_b self)) j i))
  /\ ortho_u self
     = fst (fst (fst
         (OrthogonalProcrustes_calculate
            (np.eye (fst (np.shape (umeyama self)))) (umeyama self)
            (translate self) (scale self) (hide_padding self))))
  /\ (forall n i j, (i < n)%nat -> (j < n)%nat ->
        np.item (np.eye n) i j = if Nat.eqb i j then 1 else 0)
  /\ approx_u self = snap_to_zero (ortho_u self)
  /\ (forall i j,
        np.item (approx_u self) i j
        = if Qltb (Qabs (np.item (ortho_u self) i j)) 1e-8 then 0
          else np.item (ortho_u self) i j)
  /\ Forall (Forall (fun x => x = 0 \/ 1e-8 <= Qabs x)) (approx_u self)
  /\ (effective_approx self return_u_approx = true ->
      exists out self',
        calculate self return_u_approx return_u_best tol = inr (out, self')
        /\ u_approx out = Some (approx_u self)).
Proof.
  assert (Hsnap : approx_u self = snap_to_zero (ortho_u self))
    by (rewrite approx_u_eq; apply setitem_mask_snap).
  repeat split.
  - intros n i j Ha Hb Hi Hj. unfold umeyama.
    assert (Hn : (0 < n)%nat) by lia.
    rewrite (multiply_item n n).
    + rewrite absolute_item, (T_item n n), absolute_item; auto.
      now apply absolute_shape.
    + now apply absolute_shape.
    + apply T_shape; [now apply absolute_shape|assumption].
    + assumption.
    + assumption.
  - intros n i j. apply eye_item.
  - exact Hsnap.
  - intros i j. rewrite Hsnap. apply snap_to_zero_item.
  - rewrite Hsnap. apply snap_to_zero_entries.
  - intro He. destruct return_u_best.
    + rewrite (calculate_both self _ tol He). cbv zeta. eauto.
    + rewrite (calculate_approx_only self _ tol He). eauto.
Qed.

(** C7, witness: the approximation on a pair of 1 x 1 arrays. *)
Lemma spectral_approximation_witness :
  let self := OneByOne.instance [[3]] [[1]] in
  exists out self',
    @calculate OneByOne.accepting self true false 1e-12 = inr (out, self')
    /\ u_approx out = Some (@approx_u OneByOne.accepting self).
Proof.
  intro self.
  apply (proj2 (proj2 (proj2 (proj2 (proj2 (proj2 (proj2
    (@spectral_approximation OneByOne.accepting self true false
       1e-12)))))))).
  reflexivity.
Defined.

(** ** The transformed arrays *)

(** C8.  Whenever [calculate] returns: if the approximation ran, the
    transformed array of the approximate candidate is
    [array_a . u_approx]; if the sign search ran, the transformed array of
    the best candidate is [U' . array_a . U] for the matrix [U] the sign
    search ended with, which is the returned [u_best] unless the
    approximate candidate replaced it in the selection; and a block that
    did not run leaves its transformed array [None]. *)
Theorem transformed_arrays `{B : Base}
  (self : Procrustes transform)
  (return_u_approx return_u_best : bool) (tol : Q) :
  effective_approx self return_u_approx || return_u_best = true ->
  exists out self',
    calculate self return_u_approx return_u_best tol = inr (out, self')
    /\ (effective_approx self return_u_approx = true ->
        u_approx out = Some (approx_u self)
        /\ array_transformed_approx out
           = Some (np.dot (array_a self) (approx_u self)))
    /\ (return_u_best = true ->
        array_transformed_best out
        = Some (np.dot (np.dot (np.T (search_u self tol)) (array_a self))
                       (search_u self tol)))
    /\ (return_u_best = true ->
        effective_approx self return_u_approx = false
        \/ search_error self tol <= approx_error self ->
        u_best out = Some (search_u self tol))
    /\ (effective_approx self return_u_approx = false ->
        array_transformed_approx out = None)
    /\ (return_u_best = false -> array_transformed_best out = None).
Proof.
  intro Hrun.
  destruct (effective_approx self return_u_approx) eqn:He;
    destruct return_u_best; try discriminate Hrun.
  - rewrite (calculate_both self _ tol He). cbv zeta.
    eexists. eexists. split; [reflexivity|].
    cbn [u_approx array_transformed_approx array_transformed_best u_best].
    repeat split; try discriminate.
    intros _ [Hno|Hle]; [discriminate Hno|].
    apply Qgeb_ge in Hle. now rewrite Hle.
  - rewrite (calculate_approx_only self _ tol He).
    eexists. eexists. split; [reflexivity|].
    repeat split; discriminate.
  - rewrite (calculate_best_only self _ tol He).
    eexists. eexists. split; [reflexivity|].
    repeat split; discriminate.
Qed.

(** C8, witness: both candidates on a pair of 1 x 1 arrays. *)
Lemma transformed_arrays_witness :
  let self := OneByOne.instance [[3]] [[1]] in
  exists out self',
    @calculate OneByOne.accepting self true true 1e-12 = inr (out, self')
    /\ array_transformed_approx out
       = Some (np.dot (array_a self) (@approx_u OneByOne.accepting self))
    /\ array_transformed_best out
       = Some (np.dot (np.dot (np.T (@search_u OneByOne.accepting self 1e-12))
                              (array_a self))
                      (@search_u OneByOne.accepting self 1e-12)).
Proof.
  intro self.
  destruct (@transformed_arrays OneByOne.accepting self true true 1e-12
              eq_refl)
    as [out [self' [Hret [Happrox [Hbest _]]]]].
  exists out, self'. split; [exact Hret|]. split.
  - apply Happrox. reflexivity.
  - apply Hbest. reflexivity.
Defined.

(** ** Determinism *)

Section Frame.

Context `{B : Base}.
Variables s1 s2 : Procrustes transform.
Hypothesis Hsame : same_inputs s1 s2.

Lemma effective_approx_frame (return_u_approx : bool) :
  effective_approx s1 return_u_approx = effective_approx s2 return_u_approx.
Proof.
  destruct Hsame as (Ha & Hb & _). unfold effective_approx.
  now rewrite Ha, Hb.
Qed.

Lemma approx_block_frame : approx_block s1 = approx_block s2.
Proof.
  destruct Hsame as (Ha & Hb & Ht & Hs & _ & Hh & _). unfold approx_block.
  now rewrite Ha, Hb, Ht, Hs, Hh.
Qed.

Lemma sign_search_frame (tol : Q) : sign_search s1 tol = sign_search s2 tol.
Proof.
  destruct Hsame as (Ha & Hb & _). unfold sign_search.
  now rewrite Ha, Hb.
Qed.

End Frame.

(** C10.  The arrays and errors that [calculate] returns are a function of
    the preprocessed arrays, the flags and the tolerance alone: on two
    instances that agree on these, whatever the attribute that an earlier
    call left behind, two calls with the same arguments raise the same
    exception or return the same [u_approx], [u_best], transformed arrays
    and errors. *)
Theorem calculate_deterministic `{B : Base}
  (s1 s2 : Procrustes transform)
  (return_u_approx return_u_best : bool) (tol : Q) :
  same_inputs s1 s2 ->
  same_outputs (calculate s1 return_u_approx return_u_best tol)
               (calculate s2 return_u_approx return_u_best tol).
Proof.
  intro Hsame.
  pose proof (effective_approx_frame s1 s2 Hsame return_u_approx) as He.
  pose proof (approx_block_frame s1 s2 Hsame) as Ha.
  pose proof (sign_search_frame s1 s2 Hsame tol) as Hs.
  assert (Hau : approx_u s1 = approx_u s2)
    by (unfold approx_u; now rewrite Ha).
  assert (Hae : approx_error s1 = approx_error s2)
    by (unfold approx_error; now rewrite Ha).
  assert (Hsu : search_u s1 tol = search_u s2 tol)
    by (unfold search_u; now rewrite Hs).
  assert (Hse : search_error s1 tol = search_error s2 tol)
    by (unfold search_error; now rewrite Hs).
  assert (Haa : array_a s1 = array_a s2) by apply Hsame.
  destruct (effective_approx s2 return_u_approx) eqn:He2;
    destruct return_u_best.
  - rewrite (calculate_both s1 _ tol He), (calculate_both s2 _ tol He2).
    cbv zeta. unfold same_outputs.
    cbn [u_approx u_best array_transformed_approx array_transformed_best
         error_approx error_best].
    rewrite Hau, Hae, Hsu, Hse, Haa. repeat split.
  - rewrite (calculate_approx_only s1 _ tol He),
      (calculate_approx_only s2 _ tol He2).
    unfold same_outputs.
    cbn [u_approx u_best array_transformed_approx array_transformed_best
         error_approx error_best].
    rewrite Hau, Hae, Haa. repeat split.
  - rewrite (calculate_best_only s1 _ tol He),
      (calculate_best_only s2 _ tol He2).
    unfold same_outputs.
    cbn [u_approx u_best array_transformed_approx array_transformed_best
         error_approx error_best].
    rewrite Hsu, Hse, Haa. repeat split.
  - rewrite (calculate_none s1 _ tol He), (calculate_none s2 _ tol He2).
    reflexivity.
Qed.

(** C10, witness: a call on a fresh instance and a call on the instance
    that a first call left, with the attribute set by [map_a_b]. *)
Lemma calculate_deterministic_witness :
  let s1 := OneByOne.instance [[3]] [[1]] in
  let s2 := @mapped OneByOne.accepting s1 [[-1]] in
  same_outputs (@calculate OneByOne.accepting s1 true true 1e-12)
               (@calculate OneByOne.accepting s2 true true 1e-12).
Proof.
  intros s1 s2.
  apply (@calculate_deterministic OneByOne.accepting s1 s2 true true 1e-12).
  repeat split.
Defined.

(** ** The test of the constructor *)

Lemma shape_of_has_shape (r c : nat) (a : np.ndarray) :
  has_shape r c a -> (0 < r)%nat -> np.shape a = (r, c).
Proof.
  intros [Hlen Hrows] Hr. unfold np.shape. rewrite Hlen. f_equal.
  destruct a as [|row a]; [simpl in Hlen; lia|].
  now apply Forall_inv in Hrows.
Qed.

(** Broadcasting an array to its own shape leaves it as it is. *)
Lemma broadcast_to_same (r c : nat) (a : np.ndarray) :
  has_shape r c a -> (0 < r)%nat -> np.broadcast_to r c a = a.
Proof.
  intros Ha Hr. unfold np.broadcast_to.
  rewrite (shape_of_has_shape r c a Ha Hr). cbn [fst snd].
  rewrite !Nat.eqb_refl.
  assert (Hlen : List.length a = r) by apply Ha.
  apply (nth_ext _ _ [] []).
  - now rewrite length_map, length_seq.
  - intros i Hi. rewrite length_map, length_seq in Hi.
    rewrite (nth_indep _ []
               ((fun i => map (fun j => np.item a i j) (seq 0 c)) 0%nat))
      by now rewrite length_map, length_seq.
    rewrite (map_nth (fun i => map (fun j => np.item a i j) (seq 0 c))).
    rewrite seq_nth by assumption. cbn [Nat.add].
    apply (nth_ext _ _ 0 0).
    + now rewrite length_map, length_seq, (has_shape_row r c a i Ha Hi).
    + intros j Hj. rewrite length_map, length_seq in Hj.
      rewrite (nth_indep _ 0 ((fun j => np.item a i j) 0%nat))
        by now rewrite length_map, length_seq.
      rewrite (map_nth (fun j => np.item a i j)).
      now rewrite seq_nth by assumption.
Qed.

(** On a square array [a - a.T] is the entry by entry difference. *)
Lemma subtract_T_square (n : nat) (a : np.ndarray) :
  has_shape n n a -> (0 < n)%nat ->
  np.subtract a (np.T a) = Some (np.zip_with (np.zip_with Qminus) a (np.T a)).
Proof.
  intros Ha Hn. pose proof (T_shape n n a Ha Hn) as HT.
  unfold np.subtract.
  rewrite (shape_of_has_shape n n a Ha Hn),
    (shape_of_has_shape n n (np.T a) HT Hn).
  cbn [fst snd]. unfold np.broadcast_axis. rewrite Nat.eqb_refl.
  now rewrite !broadcast_to_same.
Qed.

(** On an array of [r] rows and [c] columns, [r] and [c] different and
    both at least 2, [a - a.T] raises: the shapes [(r, c)] and [(c, r)]
    do not broadcast together. *)
Lemma subtract_T_rectangle (r c : nat) (a : np.ndarray) :
  has_shape r c a -> (2 <= r)%nat -> (2 <= c)%nat -> r <> c ->
  np.subtract a (np.T a) = None.
Proof.
  intros Ha Hr Hc Hrc.
  assert (HT : has_shape c r (np.T a)) by (apply T_shape; [assumption|lia]).
  unfold np.subtract.
  rewrite (shape_of_has_shape r c a Ha) by lia.
  rewrite (shape_of_has_shape c r (np.T a) HT) by lia.
  cbn [fst snd]. unfold np.broadcast_axis.
  destruct (Nat.eqb_spec r c) as [Heq|_]; [contradiction|].
  destruct (Nat.eqb_spec r 1) as [Heq|_]; [lia|].
  destruct (Nat.eqb_spec c 1) as [Heq|_]; [lia|].
  reflexivity.
Qed.

Lemma square_empty_or_entry (n : nat) (a : np.ndarray) :
  has_shape n n a ->
  (n = 0%nat /\ a = [])
  \/ ((0 < n)%nat /\ exists x row rest, a = (x :: row) :: rest).
Proof.
  intros [Hlen Hrows]. destruct a as [|[|x row] rest].
  - left. simpl in Hlen. now split.
  - apply Forall_inv in Hrows. simpl in Hrows, Hlen. lia.
  - right. simpl in Hlen. split; [lia|]. eauto.
Qed.

(** The test [(abs(a - a.T) > 1.e-10).all()] is [False] on every square
    array with an entry: the entry [(0, 0)] of [a - a.T] is
    [a[0,0] - a[0,0]]. *)
Lemma asymmetry_test_square (n : nat) (a : np.ndarray) :
  has_shape n n a -> (0 < n)%nat -> asymmetry_test a = inr false.
Proof.
  intros Ha Hn. unfold asymmetry_test.
  rewrite (subtract_T_square n a Ha Hn). f_equal.
  destruct (square_empty_or_entry n a Ha) as [[H0 _]|[_ (x & row & rest & ->)]];
    [lia|].
  unfold np.all, np.greater, np.absolute, np.T.
  cbn [np.shape snd hd List.length seq map np.zip_with nth forallb].
  assert (Hzero : Qgtb (Qabs (x - x)) 1e-10 = false).
  { unfold Qgtb. apply Qltb_ge. apply Qabs_Qle_condition.
    assert (Hpos : 0 <= 1e-10) by (vm_compute; discriminate).
    revert Hpos. generalize 1e-10. intros c Hpos. split; lra. }
  rewrite Hzero. reflexivity.
Qed.

(** On an array whose numbers of rows and of columns differ and are both
    at least 2, the test of the constructor raises numpy's [ValueError] for
    shapes that do not broadcast, not the [ValueError] about symmetry:
    this happens when [array_a] is such an array, and when [array_a] is a
    square array with an entry and [array_b] is such an array. *)
Theorem init_raises_on_rectangular_arrays `{B : Base} (a b : np.ndarray)
  (translate scale preserve_symmetry hide_padding
     translate_symmetrically : bool) (r c : nat) :
  let self := Procrustes_init a b translate scale preserve_symmetry
                hide_padding translate_symmetrically in
  (2 <= r)%nat -> (2 <= c)%nat -> r <> c ->
  (has_shape r c (array_a self) ->
   init a b translate scale preserve_symmetry hide_padding
     translate_symmetrically = inl (ValueError msg_broadcast))
  /\ (forall n, (0 < n)%nat -> has_shape n n (array_a self) ->
        has_shape r c (array_b self) ->
        init a b translate scale preserve_symmetry hide_padding
          translate_symmetrically = inl (ValueError msg_broadcast)).
Proof.
  intros self Hr Hc Hrc. unfold init. fold self. split.
  - intro Ha. unfold asymmetry_test.
    now rewrite (subtract_T_rectangle r c _ Ha Hr Hc Hrc).
  - intros n Hn Ha Hb. rewrite (asymmetry_test_square n _ Ha Hn).
    cbn [bind]. unfold asymmetry_test.
    now rewrite (subtract_T_rectangle r c _ Hb Hr Hc Hrc).
Qed.

(** C2, the constructor on a pair that is not symmetric: the entries
    [(0, 1)] and [(1, 0)] of [array_a] differ by 1, and the instance is
    built. *)
Example init_accepts_nonsymmetric_array :
  let a := [[1; 2]; [3; 4]] in
  let b := [[1; 0]; [0; 1]] in
  1e-10 < Qabs (np.item a 0 1 - np.item a 1 0)
  /\ @init_default OneByOne.accepting a b
     = inr (@Procrustes_init OneByOne.accepting a b false false true true
              false)
  /\ array_a (@Procrustes_init OneByOne.accepting a b false false true true
                false) = a.
Proof.
  intros a b. split; [reflexivity|]. split; reflexivity.
Qed.

(** The constructor on a 2 x 3 array. *)
Lemma init_raises_on_rectangular_arrays_witness :
  @init OneByOne.accepting [[1; 2; 3]; [4; 5; 6]] [[1]]
    false false true true false
  = inl (ValueError msg_broadcast).
Proof.
  refine (proj1 (@init_raises_on_rectangular_arrays OneByOne.accepting
                   [[1; 2; 3]; [4; 5; 6]] [[1]] false false true true false
                   2 3 _ _ _) _).
  - lia.
  - lia.
  - lia.
  - split; [reflexivity|]. repeat constructor.
Defined.

(* ================================================================= *)
(** * Further properties of the constructor and of [calculate] *)

(** ** What the loop of the sign search keeps true *)

Section SearchInvariant.

Context `{B : Base}.
Variable self : Procrustes transform.
Variable tol : Q.

(** From any starting pair, over any range [a, a + n): the final error is
    at most the error of every trial that was run; the final pair is the
    starting pair or one of the trials that were run; the final error is at
    most the starting error unless it is below the tolerance; the trials
    that were run are a prefix of the range, all of it unless the final
    error is below the tolerance. *)
Lemma for_range_invariant (n a : nat) (s : np.ndarray * Q) :
  let res := for_range (search_body self tol) (seq a n) s in
  (forall j, In j (snd res) -> snd (fst res) <= trial_error self j)
  /\ (fst res = s \/ exists i, In i (snd res) /\ fst res = trial self i)
  /\ (snd (fst res) <= snd s \/ snd (fst res) < tol)
  /\ (exists k, (k <= n)%nat /\ snd res = seq a k /\ ((0 < n)%nat -> (0 < k)%nat))
  /\ (snd res = seq a n \/ snd (fst res) < tol).
Proof.
  revert a s. induction n as [|n IH]; intros a s; cbn [seq for_range].
  - cbn [fst snd]. repeat split.
    + intros j [].
    + now left.
    + left. apply Qle_refl.
    + exists 0%nat. repeat split; [lia|lia].
    + now left.
  - rewrite search_body_spec.
    destruct (Qltb (trial_error self a) tol) eqn:Htol.
    + apply Qltb_lt in Htol. cbn [fst snd]. repeat split.
      * intros j [<-|[]]. apply Qle_refl.
      * right. exists a. split; [now left|reflexivity].
      * now right.
      * exists 1%nat. repeat split; lia.
      * now right.
    + apply Qltb_ge in Htol.
      destruct (Qltb (trial_error self a) (snd s)) eqn:Hbest.
      * apply Qltb_lt in Hbest.
        specialize (IH (S a) (trial self a)). cbv zeta in IH.
        destruct (for_range _ (seq (S a) n) (trial self a)) as [r run].
        cbn [fst snd] in *.
        destruct IH as (Hmin & Horigin & Hbound & (k & Hk & Hrun & Hpos) & Hend).
        assert (Ha : snd r <= trial_error self a)
          by (destruct Hbound as [Hle|Hlt]; [exact Hle|lra]).
        repeat split.
        -- intros j [<-|Hj]; [exact Ha|now apply Hmin].
        -- right. destruct Horigin as [->|[i [Hi ->]]].
           ++ exists a. split; [now left|reflexivity].
           ++ exists i. split; [now right|reflexivity].
        -- destruct Hbound as [Hle|Hlt]; [left; lra|now right].
        -- exists (S k). repeat split; [lia|now rewrite Hrun|lia].
        -- destruct Hend as [->|Hlt]; [now left|now right].
      * apply Qltb_ge in Hbest.
        specialize (IH (S a) s). cbv zeta in IH.
        destruct (for_range _ (seq (S a) n) s) as [r run].
        cbn [fst snd] in *.
        destruct IH as (Hmin & Horigin & Hbound & (k & Hk & Hrun & Hpos) & Hend).
        repeat split.
        -- intros j [<-|Hj]; [|now apply Hmin].
           destruct Hbound as [Hle|Hlt]; lra.
        -- destruct Horigin as [->|[i [Hi ->]]]; [now left|].
           right. exists i. split; [now right|reflexivity].
        -- exact Hbound.
        -- exists (S k). repeat split; [lia|now rewrite Hrun|lia].
        -- destruct Hend as [->|Hlt]; [now left|now right].
Qed.

(** Below the tolerance of no trial, the loop does not depend on the
    tolerance. *)
Lemma for_range_tolerance_free (tol' : Q) (n a : nat) (s : np.ndarray * Q) :
  (forall j, (a <= j < a + n)%nat ->
             tol <= trial_error self j /\ tol' <= trial_error self j) ->
  for_range (search_body self tol) (seq a n) s
  = for_range (search_body self tol') (seq a n) s.
Proof.
  revert a s. induction n as [|n IH]; intros a s Hall; [reflexivity|].
  cbn [seq for_range]. rewrite !search_body_spec.
  destruct (Hall a) as [Ht Ht']; [lia|].
  apply Qltb_ge in Ht. apply Qltb_ge in Ht'. rewrite Ht, Ht'.
  destruct (Qltb (trial_error self a) (snd s));
    (rewrite IH; [reflexivity|]); intros j Hj; apply Hall; lia.
Qed.

End SearchInvariant.

(** ** What the sign search returns *)

Lemma trial_count_pos `{B : Base} (self : Procrustes transform) :
  (0 < trial_count self)%nat.
Proof.
  unfold trial_count. apply Nat.neq_0_lt_0. now apply Nat.pow_nonzero.
Qed.

(** The invariant of the loop, for the sign search as [calculate] runs
    it. *)
Lemma sign_search_invariant `{B : Base}
  (self : Procrustes transform) (tol : Q) :
  (forall j, In j (search_run self tol) ->
             search_error self tol <= trial_error self j)
  /\ (fst (sign_search self tol) = (svd_u (array_a self), sentinel)
      \/ exists i, In i (search_run self tol)
                   /\ fst (sign_search self tol) = trial self i)
  /\ (search_error self tol <= sentinel \/ search_error self tol < tol)
  /\ (exists k, (1 <= k <= trial_count self)%nat
                /\ search_run self tol = seq 0 k)
  /\ (search_run self tol = seq 0 (trial_count self)
      \/ search_error self tol < tol).
Proof.
  unfold search_run, search_error. rewrite sign_search_unfold.
  destruct (for_range_invariant self tol (trial_count self) 0
              (svd_u (array_a self), sentinel))
    as (Hmin & Horigin & Hbound & (k & Hk & Hrun & Hpos) & Hend).
  repeat split; try assumption.
  exists k. pose proof (trial_count_pos self). split; [lia|exact Hrun].
Qed.

(** The sign search always runs the first trial, the trials it runs are
    the first [k] ones for some [k] between 1 and [2^n], and the error it
    ends with is at most the error of every trial it ran. *)
Theorem sign_search_beats_run_trials `{B : Base}
  (self : Procrustes transform) (tol : Q) :
  (exists k, (1 <= k <= trial_count self)%nat
             /\ search_run self tol = seq 0 k)
  /\ (forall j, In j (search_run self tol) ->
                search_error self tol <= trial_error self j).
Proof.
  destruct (sign_search_invariant self tol) as (Hmin & _ & _ & Hrun & _).
  split; assumption.
Qed.

(** The loop stops early only below the tolerance: when the error the sign
    search ends with is not below the tolerance, all [2^n] trials were run
    and none has a smaller error. *)
Theorem sign_search_early_stop_is_below_tolerance `{B : Base}
  (self : Procrustes transform) (tol : Q) :
  tol <= search_error self tol ->
  search_run self tol = seq 0 (trial_count self)
  /\ (forall j, (j < trial_count self)%nat ->
                search_error self tol <= trial_error self j).
Proof.
  intro Htol.
  destruct (sign_search_invariant self tol)
    as (Hmin & _ & _ & _ & [Hall|Hlt]); [|lra].
  split; [exact Hall|].
  intros j Hj. apply Hmin. rewrite Hall. apply in_seq. lia.
Qed.

Lemma sign_search_early_stop_is_below_tolerance_witness :
  let self := OneByOne.instance [[3]] [[1]] in
  @search_run OneByOne.accepting self 1e-12
    = seq 0 (@trial_count OneByOne.accepting self)
  /\ (forall j, (j < @trial_count OneByOne.accepting self)%nat ->
        @search_error OneByOne.accepting self 1e-12
        <= @trial_error OneByOne.accepting self j).
Proof.
  intro self.
  apply (@sign_search_early_stop_is_below_tolerance OneByOne.accepting
           self 1e-12).
  vm_compute. discriminate.
Defined.

(** The pair the sign search ends with is the pair it started from,
    [(U_A, 1e5)], or a trial that was run: then its matrix is
    [U_A . diag(d) . U_B'] for a sign vector [d] of the enumeration, and
    its error is the error of that matrix. *)
Theorem sign_search_result_origin `{B : Base}
  (self : Procrustes transform) (tol : Q) :
  fst (sign_search self tol) = (svd_u (array_a self), 1e5)
  \/ exists i d,
       In i (search_run self tol)
       /\ (i < trial_count self)%nat
       /\ nth_error (sign_patterns self) i = Some d
       /\ sign_vector (search_dim self) d
       /\ search_u self tol
          = np.dot (np.dot (svd_u (array_a self)) (np.diag d))
                   (np.T (svd_u (array_b self)))
       /\ search_error self tol
          = double_sided_procrustes_error (array_a self) (array_b self)
              (search_u self tol) (search_u self tol).
Proof.
  destruct (sign_search_invariant self tol)
    as (_ & [Hinit|[i [Hi Hend]]] & _ & (k & Hk & Hrun) & _); [now left|].
  right. unfold search_u, search_error.
  assert (Hlt : (i < trial_count self)%nat).
  { rewrite Hrun in Hi. apply in_seq in Hi. lia. }
  assert (Hlen : (i < List.length (sign_patterns self))%nat).
  { unfold sign_patterns. rewrite product_signs_length. exact Hlt. }
  exists i, (nth i (sign_patterns self) []).
  split; [exact Hi|]. split; [exact Hlt|]. split; [|split; [|split]].
  - now apply nth_error_nth'.
  - apply product_signs_spec. now apply nth_In.
  - now rewrite Hend.
  - now rewrite Hend.
Qed.

(** With a tolerance of at most [1e5], the sign search never ends with an
    error above [1e5], and when the sign search is requested [calculate]
    returns an [error_best] that is at most [1e5], at most the error of
    the sign search and at most the returned [error_approx]. *)
Theorem returned_error_best_is_bounded `{B : Base}
  (self : Procrustes transform) (return_u_approx : bool) (tol : Q) :
  tol <= 1e5 ->
  search_error self tol <= 1e5
  /\ exists out self' e,
       calculate self return_u_approx true tol = inr (out, self')
       /\ error_best out = Some e
       /\ e <= 1e5
       /\ e <= search_error self tol
       /\ (forall ea, error_approx out = Some ea -> e <= ea).
Proof.
  intro Htol.
  assert (Hbound : search_error self tol <= 1e5).
  { destruct (sign_search_invariant self tol) as (_ & _ & [Hle|Hlt] & _);
      unfold sentinel in *; lra. }
  split; [exact Hbound|].
  destruct (effective_approx self return_u_approx) eqn:He.
  - rewrite (calculate_both self _ tol He). cbv zeta.
    destruct (Qgeb (approx_error self) (search_error self tol)) eqn:Hsel.
    + apply Qgeb_ge in Hsel.
      eexists. eexists. exists (search_error self tol).
      split; [reflexivity|]. cbn [error_best error_approx snd].
      repeat split; try assumption; try apply Qle_refl.
      intros ea [= <-]. exact Hsel.
    + apply Qgeb_lt in Hsel.
      eexists. eexists. exists (approx_error self).
      split; [reflexivity|]. cbn [error_best error_approx snd].
      repeat split; try lra.
      intros ea [= <-]. apply Qle_refl.
  - rewrite (calculate_best_only self _ tol He).
    eexists. eexists. exists (search_error self tol).
    split; [reflexivity|]. cbn [error_best error_approx].
    repeat split; try assumption; try apply Qle_refl.
    intros ea [=].
Qed.

Lemma returned_error_best_is_bounded_witness :
  let self := OneByOne.instance [[200000]] [[0]] in
  @search_error OneByOne.accepting self 1e-12 <= 1e5
  /\ exists out self' e,
       @calculate OneByOne.accepting self true true 1e-12 = inr (out, self')
       /\ error_best out = Some e
       /\ e <= 1e5
       /\ e <= @search_error OneByOne.accepting self 1e-12
       /\ (forall ea, error_approx out = Some ea -> e <= ea).
Proof.
  intro self.
  apply (@returned_error_best_is_bounded OneByOne.accepting self true 1e-12).
  vm_compute. discriminate.
Defined.


(** The tolerance acts through the early exit alone: for two tolerances
    that no trial error is below, [calculate] gives the same result. *)
Theorem tolerance_matters_only_for_early_exit `{B : Base}
  (self : Procrustes transform)
  (return_u_approx return_u_best : bool) (tol tol' : Q) :
  no_early_exit self tol -> no_early_exit self tol' ->
  sign_search self tol = sign_search self tol'
  /\ calculate self return_u_approx return_u_best tol
     = calculate self return_u_approx return_u_best tol'.
Proof.
  intros Hno Hno'.
  assert (Hsearch : sign_search self tol = sign_search self tol').
  { rewrite !sign_search_unfold. apply for_range_tolerance_free.
    intros j Hj. split; [apply Hno|apply Hno']; lia. }
  split; [exact Hsearch|].
  unfold calculate, run_blocks, best_block. now rewrite Hsearch.
Qed.

Lemma tolerance_matters_only_for_early_exit_witness :
  let self := OneByOne.instance [[3]] [[1]] in
  @sign_search OneByOne.accepting self 1e-12
  = @sign_search OneByOne.accepting self 1
  /\ @calculate OneByOne.accepting self true true 1e-12
     = @calculate OneByOne.accepting self true true 1.
Proof.
  intro self.
  apply (@tolerance_matters_only_for_early_exit OneByOne.accepting self
           true true 1e-12 1).
  - intros i Hi. change (i < 2)%nat in Hi.
    destruct i as [|[|i]]; [vm_compute; discriminate
                           |vm_compute; discriminate|lia].
  - intros i Hi. change (i < 2)%nat in Hi.
    destruct i as [|[|i]]; [vm_compute; discriminate
                           |vm_compute; discriminate|lia].
Defined.

(** ** The sign patterns and the trials, entry by entry *)

Lemma testbit_above (i n : nat) : (i < 2 ^ n)%nat -> Nat.testbit i n = false.
Proof.
  intro Hi. apply Nat.b2n_inj. rewrite Nat.testbit_spec'.
  now rewrite Nat.div_small.
Qed.

Lemma testbit_top (i n : nat) :
  (2 ^ n <= i < 2 ^ S n)%nat -> Nat.testbit i n = true.
Proof.
  intros [Hlo Hhi]. apply Nat.b2n_inj. rewrite Nat.testbit_spec'.
  assert (Hq : (i / 2 ^ n = 1)%nat).
  { symmetry. apply (Nat.div_unique i (2 ^ n) 1 (i - 2 ^ n)).
    - rewrite Nat.pow_succ_r' in Hhi. lia.
    - lia. }
  now rewrite Hq.
Qed.

Lemma testbit_add_pow (r n m : nat) :
  (m < n)%nat -> Nat.testbit (r + 2 ^ n) m = Nat.testbit r m.
Proof.
  intro Hm. apply Nat.b2n_inj. rewrite !Nat.testbit_spec'.
  replace n with (S (n - m - 1) + m)%nat at 1 by lia.
  rewrite Nat.pow_add_r.
  rewrite Nat.div_add by (apply Nat.pow_nonzero; lia).
  rewrite Nat.pow_succ_r', (Nat.mul_comm 2).
  apply Nat.Div0.mod_add.
Qed.

Lemma nth_map_cons (x : Q) (l : list (list Q)) (i : nat) :
  (i < List.length l)%nat ->
  nth i (map (cons x) l) [] = x :: nth i l [].
Proof.
  intro Hi. rewrite (nth_indep _ [] (cons x [])) by now rewrite length_map.
  apply map_nth.
Qed.

Lemma sign_pattern_entry (n i k : nat) :
  (i < 2 ^ n)%nat -> (k < n)%nat ->
  nth k (nth i (itertools.product [-1; 1] n) []) 0
  = if Nat.testbit i (n - 1 - k) then 1 else -1.
Proof.
  revert i k. induction n as [|n IH]; intros i k Hi Hk; [lia|].
  rewrite product_signs_S.
  pose proof (product_signs_length n) as Hlen.
  destruct (Nat.lt_ge_cases i (2 ^ n)) as [Hlow|Hhigh].
  - rewrite app_nth1 by (rewrite length_map; lia).
    rewrite nth_map_cons by lia.
    destruct k as [|k]; cbn [nth].
    + replace (S n - 1 - 0)%nat with n by lia.
      now rewrite testbit_above.
    + replace (S n - 1 - S k)%nat with (n - 1 - k)%nat by lia.
      apply IH; lia.
  - rewrite Nat.pow_succ_r' in Hi.
    rewrite app_nth2 by (rewrite length_map; lia).
    rewrite length_map, Hlen.
    rewrite nth_map_cons by lia.
    destruct k as [|k]; cbn [nth].
    + replace (S n - 1 - 0)%nat with n by lia.
      rewrite testbit_top; [reflexivity|].
      rewrite Nat.pow_succ_r'. lia.
    + replace (S n - 1 - S k)%nat with (n - 1 - k)%nat by lia.
      rewrite IH by lia.
      replace i with ((i - 2 ^ n) + 2 ^ n)%nat at 2 by lia.
      rewrite testbit_add_pow by lia. reflexivity.
Qed.

Lemma diag_shape (d : list Q) :
  has_shape (List.length d) (List.length d) (np.diag d).
Proof.
  unfold has_shape, np.diag. cbv zeta. split.
  - now rewrite length_map, length_seq.
  - apply Forall_map. apply Forall_forall. intros i _.
    now rewrite length_map, length_seq.
Qed.

Lemma T_row (n p : nat) (b : np.ndarray) (j : nat) :
  has_shape n p b -> (0 < n)%nat -> (j < p)%nat ->
  nth j (np.T b) [] = map (fun row => nth j row 0) b.
Proof.
  intros [Hlen Hrows] Hn Hj. unfold np.T, np.shape. cbn [snd].
  assert (Hhd : List.length (hd [] b) = p).
  { destruct b as [|row b]; [simpl in Hlen; lia|]. now inversion Hrows. }
  rewrite Hhd.
  rewrite (nth_indep _ [] (map (fun row => nth 0%nat row 0) b))
    by now rewrite length_map, length_seq.
  rewrite (map_nth (fun j => map (fun row => nth j row 0) b) (seq 0 p) 0%nat j).
  now rewrite seq_nth by assumption.
Qed.

(** [np.dot(a, b)[i, j]] is the inner product of row [i] of [a] with
    column [j] of [b]. *)
Lemma dot_item (m n p : nat) (a b : np.ndarray) (i j : nat) :
  has_shape m n a -> has_shape n p b -> (0 < n)%nat ->
  (i < m)%nat -> (j < p)%nat ->
  np.item (np.dot a b) i j
  = np.inner (nth i a []) (map (fun row => nth j row 0) b).
Proof.
  intros Ha Hb Hn Hi Hj. unfold np.item, np.dot.
  rewrite (nth_indep _ []
             ((fun row => map (fun col => np.inner row col) (np.T b)) []))
    by (rewrite length_map; destruct Ha; lia).
  rewrite (map_nth (fun row => map (fun col => np.inner row col) (np.T b))).
  pose proof (T_shape n p b Hb Hn) as [HlenT _].
  rewrite (nth_indep _ 0 ((fun col => np.inner (nth i a []) col) []))
    by (rewrite length_map; lia).
  rewrite (map_nth (fun col => np.inner (nth i a []) col)).
  now rewrite (T_row n p b j Hb Hn Hj).
Qed.

Lemma diag_column (d : list Q) (j : nat) :
  (j < List.length d)%nat ->
  map (fun row => nth j row 0) (np.diag d)
  = map (fun k => if Nat.eqb k j then nth k d 0 else 0)
        (seq 0 (List.length d)).
Proof.
  intro Hj. unfold np.diag. cbv zeta. rewrite map_map.
  apply map_ext. intro k.
  rewrite (nth_indep _ 0 ((fun j => if Nat.eqb k j then nth k d 0 else 0) 0%nat))
    by now rewrite length_map, length_seq.
  rewrite (map_nth (fun j => if Nat.eqb k j then nth k d 0 else 0)).
  now rewrite seq_nth by assumption.
Qed.

Lemma inner_indicator (d row : list Q) (j a : nat) :
  np.inner row (map (fun k => if Nat.eqb k j then nth k d 0 else 0)
                    (seq a (List.length row)))
  == if (a <=? j)%nat && (j <? a + List.length row)%nat
     then nth (j - a) row 0 * nth j d 0 else 0.
Proof.
  unfold np.inner. revert a. induction row as [|x row IH]; intro a.
  - cbn [List.length seq map np.zip_with fold_right].
    destruct (a <=? j)%nat eqn:E1, (j <? a + 0)%nat eqn:E2; cbn [andb];
      try reflexivity.
    apply Nat.leb_le in E1. apply Nat.ltb_lt in E2. lia.
  - cbn [List.length seq map np.zip_with fold_right]. rewrite IH.
    destruct (Nat.eqb a j) eqn:Eaj.
    + apply Nat.eqb_eq in Eaj. subst j.
      replace (S a <=? a)%nat with false by (symmetry; apply Nat.leb_gt; lia).
      replace (a <=? a)%nat with true by (symmetry; apply Nat.leb_le; lia).
      replace (a <? a + S (List.length row))%nat with true
        by (symmetry; apply Nat.ltb_lt; lia).
      cbn [andb]. rewrite Nat.sub_diag. cbn [nth]. ring.
    + apply Nat.eqb_neq in Eaj.
      destruct (S a <=? j)%nat eqn:E1.
      * apply Nat.leb_le in E1.
        replace (a <=? j)%nat with true by (symmetry; apply Nat.leb_le; lia).
        replace (j <? a + S (List.length row))%nat
          with (j <? S a + List.length row)%nat
          by (f_equal; lia).
        cbn [andb]. destruct (j <? S a + List.length row)%nat; [|ring].
        replace (j - a)%nat with (S (j - S a)) by lia. cbn [nth]. ring.
      * apply Nat.leb_gt in E1.
        replace (a <=? j)%nat with false by (symmetry; apply Nat.leb_gt; lia).
        cbn [andb]. ring.
Qed.

(** Multiplying on the right by [np.diag(d)] scales column [j] by [d[j]]. *)
Lemma dot_diag_item (m : nat) (u : np.ndarray) (d : list Q) (i j : nat) :
  has_shape m (List.length d) u -> (i < m)%nat -> (j < List.length d)%nat ->
  np.item (np.dot u (np.diag d)) i j == np.item u i j * nth j d 0.
Proof.
  intros Hu Hi Hj.
  rewrite (dot_item m (List.length d) (List.length d) u (np.diag d) i j
             Hu (diag_shape d)) by lia.
  rewrite diag_column by assumption.
  rewrite <- (has_shape_row m (List.length d) u i Hu Hi).
  rewrite inner_indicator.
  rewrite (has_shape_row m (List.length d) u i Hu Hi).
  replace (0 <=? j)%nat with true by (symmetry; apply Nat.leb_le; lia).
  replace (j <? 0 + List.length d)%nat with true
    by (symmetry; apply Nat.ltb_lt; lia).
  cbn [andb]. rewrite Nat.sub_0_r. reflexivity.
Qed.

(** The sign pattern of trial [i] is the binary expansion of [i], most
    significant bit first, with [-1] for the bit 0 and [+1] for the bit 1:
    entry [k] of the pattern is [+1] exactly when bit [n - 1 - k] of [i] is
    set. *)
Theorem sign_pattern_is_binary_expansion `{B : Base}
  (self : Procrustes transform) (i k : nat) :
  (i < trial_count self)%nat -> (k < search_dim self)%nat ->
  nth k (nth i (sign_patterns self) []) 0
  = if Nat.testbit i (search_dim self - 1 - k) then 1 else -1.
Proof.
  intros Hi Hk. unfold sign_patterns. now apply sign_pattern_entry.
Qed.

Lemma sign_pattern_is_binary_expansion_witness :
  let self := OneByOne.instance [[3]] [[1]] in
  nth 0 (nth 1 (@sign_patterns OneByOne.accepting self) []) 0
  = if Nat.testbit 1 (@search_dim OneByOne.accepting self - 1 - 0)
    then 1 else -1.
Proof.
  intro self.
  apply (@sign_pattern_is_binary_expansion OneByOne.accepting self 1 0).
  - change (1 < 2)%nat. lia.
  - change (0 < 1)%nat. lia.
Defined.

(** In trial [p] the product [U_A . diag(d)] is [U_A] with some columns
    negated: column [j] is kept when bit [n - 1 - j] of [p] is set and
    negated otherwise. *)
Theorem trial_negates_columns_of_U_A `{B : Base}
  (self : Procrustes transform) (p i j : nat) :
  has_shape (search_dim self) (search_dim self) (svd_u (array_a self)) ->
  (p < trial_count self)%nat ->
  (i < search_dim self)%nat -> (j < search_dim self)%nat ->
  np.item (np.dot (svd_u (array_a self))
                  (np.diag (nth p (sign_patterns self) []))) i j
  == if Nat.testbit p (search_dim self - 1 - j)
     then np.item (svd_u (array_a self)) i j
     else - np.item (svd_u (array_a self)) i j.
Proof.
  intros Hu Hp Hi Hj.
  assert (Hd : sign_vector (search_dim self) (nth p (sign_patterns self) [])).
  { apply product_signs_spec. apply nth_In.
    unfold sign_patterns. now rewrite product_signs_length. }
  destruct Hd as [Hlen _].
  rewrite (dot_diag_item (search_dim self)); rewrite ?Hlen; try assumption.
  unfold sign_patterns. rewrite sign_pattern_entry by assumption.
  destruct (Nat.testbit p (search_dim self - 1 - j)); ring.
Qed.

Lemma trial_negates_columns_of_U_A_witness :
  let self := OneByOne.instance [[3]] [[1]] in
  np.item (np.dot (@svd_u OneByOne.accepting (array_a self))
                  (np.diag (nth 0 (@sign_patterns OneByOne.accepting self)
                                []))) 0 0
  == if Nat.testbit 0 (@search_dim OneByOne.accepting self - 1 - 0)
     then np.item (@svd_u OneByOne.accepting (array_a self)) 0 0
     else - np.item (@svd_u OneByOne.accepting (array_a self)) 0 0.
Proof.
  intro self.
  apply (@trial_negates_columns_of_U_A OneByOne.accepting self 0 0 0).
  - split; [reflexivity|]. repeat constructor.
  - change (0 < 2)%nat. lia.
  - change (0 < 1)%nat. lia.
  - change (0 < 1)%nat. lia.
Defined.

(** ** The snap to zero of the approximate matrix *)

Lemma snap_to_zero_shape (n m : nat) (u : np.ndarray) :
  has_shape n m u -> has_shape n m (snap_to_zero u).
Proof.
  intros [Hlen Hrows]. unfold snap_to_zero. split.
  - now rewrite length_map.
  - apply Forall_map. rewrite Forall_forall in *. intros row Hrow.
    rewrite length_map. now apply Hrows.
Qed.

Lemma snap_to_zero_idempotent (u : np.ndarray) :
  snap_to_zero (snap_to_zero u) = snap_to_zero u.
Proof.
  unfold snap_to_zero. rewrite map_map. apply map_ext. intro row.
  rewrite map_map. apply map_ext. intro x.
  destruct (Qltb (Qabs x) 1e-8) eqn:E; [reflexivity|now rewrite E].
Qed.

Lemma snap_to_zero_close (u : np.ndarray) (i j : nat) :
  Qabs (np.item (snap_to_zero u) i j - np.item u i j) < 1e-8.
Proof.
  rewrite snap_to_zero_item.
  assert (Hpos : 0 < 1e-8) by reflexivity.
  destruct (Qltb (Qabs (np.item u i j)) 1e-8) eqn:E.
  - apply Qltb_lt in E. apply Qabs_Qlt_condition in E.
    apply Qabs_Qlt_condition.
    revert E Hpos. generalize 1e-8, (np.item u i j). intros c x E Hpos.
    split; lra.
  - apply Qabs_Qlt_condition.
    revert Hpos. generalize 1e-8, (np.item u i j). intros c x Hpos.
    split; lra.
Qed.

(** The returned approximate matrix has the shape of the matrix the
    one-sided solver returned, differs from it by less than [1e-8] in
    every entry, and is left unchanged by a second masked assignment
    [u_approx[abs(u_approx) < 1.e-8] = 0]. *)
Theorem snap_is_small_and_idempotent `{B : Base}
  (self : Procrustes transform) :
  (forall n m, has_shape n m (ortho_u self) -> has_shape n m (approx_u self))
  /\ (forall i j,
        Qabs (np.item (approx_u self) i j - np.item (ortho_u self) i j)
        < 1e-8)
  /\ np.setitem_mask (approx_u self)
       (np.less (np.absolute (approx_u self)) 1e-8) 0
     = approx_u self.
Proof.
  assert (Hsnap : approx_u self = snap_to_zero (ortho_u self))
    by (rewrite approx_u_eq; apply setitem_mask_snap).
  split; [|split].
  - intros n m Hshape. rewrite Hsnap. now apply snap_to_zero_shape.
  - intros i j. rewrite Hsnap. apply snap_to_zero_close.
  - rewrite setitem_mask_snap, Hsnap. apply snap_to_zero_idempotent.
Qed.

Lemma snap_is_small_and_idempotent_witness :
  let self := OneByOne.instance [[3]] [[1]] in
  has_shape 1 1 (@approx_u OneByOne.accepting self).
Proof.
  intro self.
  apply (proj1 (@snap_is_small_and_idempotent OneByOne.accepting self) 1%nat
           1%nat).
  split; [reflexivity|]. repeat constructor.
Defined.

(** ** The returned tuple and the updated instance *)

(** Whenever [calculate] returns, the three components of the approximate
    candidate are [None] together, exactly when the approximation did not
    run, and the three components of the best candidate are [None]
    together, exactly when the sign search was not requested. *)
Theorem returned_components_are_set_together `{B : Base}
  (self : Procrustes transform)
  (return_u_approx return_u_best : bool) (tol : Q)
  (out : Output transform) (self' : Procrustes transform) :
  calculate self return_u_approx return_u_best tol = inr (out, self') ->
  ((u_approx out = None <-> effective_approx self return_u_approx = false)
   /\ (error_approx out = None
       <-> effective_approx self return_u_approx = false)
   /\ (array_transformed_approx out = None
       <-> effective_approx self return_u_approx = false))
  /\ ((u_best out = None <-> return_u_best = false)
      /\ (error_best out = None <-> return_u_best = false)
      /\ (array_transformed_best out = None <-> return_u_best = false)).
Proof.
  intro Hret.
  destruct (effective_approx self return_u_approx) eqn:He;
    destruct return_u_best.
  - rewrite (calculate_both self _ tol He) in Hret. cbv zeta in Hret.
    injection Hret as <- _. cbn. repeat split; discriminate.
  - rewrite (calculate_approx_only self _ tol He) in Hret.
    injection Hret as <- _. cbn. repeat split; discriminate.
  - rewrite (calculate_best_only self _ tol He) in Hret.
    injection Hret as <- _. cbn. repeat split; discriminate.
  - rewrite (calculate_none self _ tol He) in Hret. discriminate Hret.
Qed.

Lemma returned_components_are_set_together_witness :
  exists out : Output OneByOne.maps,
    (u_approx out = None
     <-> @effective_approx OneByOne.accepting
           (OneByOne.instance [[3]] [[1]]) false = false)
    /\ (u_best out = None <-> true = false).
Proof.
  destruct (@calculate OneByOne.accepting (OneByOne.instance [[3]] [[1]])
              false true 1e-12) as [e|[out self']] eqn:Hret;
    [vm_compute in Hret; discriminate Hret|].
  exists out.
  destruct (@returned_components_are_set_together OneByOne.accepting
              (OneByOne.instance [[3]] [[1]]) false true 1e-12 out self' Hret)
    as [[Ha _] [Hb _]].
  split; assumption.
Defined.

(** Whenever [calculate] returns, [map_a_b] was applied once, to the
    instance as it was, with the transpose of a matrix and that matrix:
    the returned [u_best] when the sign search was requested, the returned
    [u_approx] otherwise; and the last component of the tuple is the
    attribute [transformation] after that call. *)
Theorem instance_is_mapped_once `{B : Base}
  (self : Procrustes transform)
  (return_u_approx return_u_best : bool) (tol : Q)
  (out : Output transform) (self' : Procrustes transform) :
  calculate self return_u_approx return_u_best tol = inr (out, self') ->
  exists u,
    (if return_u_best then u_best out else u_approx out) = Some u
    /\ self' = map_a_b (np.T u) u true (translate_symmetrically self) self
    /\ applied_transformation out = transformation self'.
Proof.
  intro Hret.
  destruct (effective_approx self return_u_approx) eqn:He;
    destruct return_u_best.
  - rewrite (calculate_both self _ tol He) in Hret. cbv zeta in Hret.
    injection Hret as <- <-. eexists. repeat split.
  - rewrite (calculate_approx_only self _ tol He) in Hret.
    injection Hret as <- <-. eexists. repeat split.
  - rewrite (calculate_best_only self _ tol He) in Hret.
    injection Hret as <- <-. eexists. repeat split.
  - rewrite (calculate_none self _ tol He) in Hret. discriminate Hret.
Qed.

Lemma instance_is_mapped_once_witness :
  exists (out : Output OneByOne.maps) (self' : Procrustes OneByOne.maps) u,
    u_best out = Some u
    /\ self' = @map_a_b OneByOne.accepting (np.T u) u true false
                 (OneByOne.instance [[3]] [[1]])
    /\ applied_transformation out = transformation self'.
Proof.
  destruct (@calculate OneByOne.accepting (OneByOne.instance [[3]] [[1]])
              false true 1e-12) as [e|[out self']] eqn:Hret;
    [vm_compute in Hret; discriminate Hret|].
  destruct (@instance_is_mapped_once OneByOne.accepting
              (OneByOne.instance [[3]] [[1]]) false true 1e-12 out self' Hret)
    as [u Hu].
  exists out, self', u. exact Hu.
Defined.

(** A request for the approximation on a pair that fails the
    diagonalizability check is ignored: the call behaves in every respect
    as the call without the request. *)
Theorem rejected_request_is_ignored `{B : Base}
  (self : Procrustes transform) (return_u_best : bool) (tol : Q) :
  is_diagonalizable (array_a self) = false
  \/ is_diagonalizable (array_b self) = false ->
  calculate self true return_u_best tol
  = calculate self false return_u_best tol.
Proof.
  intro Hrej. unfold calculate.
  now rewrite !(effective_approx_rejected self _ Hrej).
Qed.

Lemma rejected_request_is_ignored_witness :
  @calculate OneByOne.rejecting (OneByOne.instance [[3]] [[1]]) true true
    1e-12
  = @calculate OneByOne.rejecting (OneByOne.instance [[3]] [[1]]) false true
      1e-12.
Proof.
  apply (@rejected_request_is_ignored OneByOne.rejecting
           (OneByOne.instance [[3]] [[1]]) true 1e-12).
  left. reflexivity.
Defined.

(** ** The constructor on square arrays *)

(** On square preprocessed arrays the constructor raises its [ValueError]
    exactly when one of the two arrays is empty (0 x 0), and returns the
    instance of the base class in every other case. *)
Theorem init_rejects_exactly_empty_arrays `{B : Base} (a b : np.ndarray)
  (translate scale preserve_symmetry hide_padding
     translate_symmetrically : bool) (n m : nat) :
  let self := Procrustes_init a b translate scale preserve_symmetry
                hide_padding translate_symmetrically in
  has_shape n n (array_a self) -> has_shape m m (array_b self) ->
  (n = 0%nat \/ m = 0%nat ->
   init a b translate scale preserve_symmetry hide_padding
     translate_symmetrically = inl (ValueError msg_symmetric))
  /\ ((0 < n)%nat /\ (0 < m)%nat ->
      init a b translate scale preserve_symmetry hide_padding
        translate_symmetrically = inr self).
Proof.
  intros self Ha Hb. unfold init. fold self.
  destruct (square_empty_or_entry n _ Ha) as [[Hn Ha0]|[Hn _]];
    destruct (square_empty_or_entry m _ Hb) as [[Hm Hb0]|[Hm _]];
    rewrite ?Ha0, ?Hb0, ?(asymmetry_test_square n _ Ha Hn),
      ?(asymmetry_test_square m _ Hb Hm);
    split; intro H; try reflexivity; lia.
Qed.

Lemma init_rejects_exactly_empty_arrays_witness :
  @init OneByOne.accepting [] [[1]] false false true true false
  = inl (ValueError msg_symmetric).
Proof.
  refine (proj1 (@init_rejects_exactly_empty_arrays OneByOne.accepting
                   [] [[1]] false false true true false 0 1 _ _) _).
  - split; [reflexivity|constructor].
  - split; [reflexivity|]. repeat constructor.
  - left. reflexivity.
Defined.
